(** * PolyFeed: the market fetcher of [src/clob/fetch_markets.py]

    A shallow embedding of the pagination loop ([fetch_all_markets]), the
    classifier ([filter_current_markets]), the extractor
    ([extract_market_names]) and the exit-code logic of [main], followed by
    the properties the specification states about them.

    Python values are the values [json] decoding produces.  Operations that
    raise in Python return a [result]; the external collaborators (the CLOB
    client, the JSON writer and standard output) are parameters of a
    section. *)

From Stdlib Require Import String Ascii.
From Stdlib Require Import ZArith NArith List Bool Lia Permutation.
From Stdlib Require Import Floats.
Import ListNotations.
#[local] Set Warnings "-register-all".
Local Open Scope Z_scope.

(** ** Python values *)

Module Py.

(** A [str] is its sequence of Unicode code points. *)
Definition pystr : Type := list N.

(** A string literal of the source: one code point per character
    (the literals of the program are ASCII). *)
Definition lit (s : string) : pystr :=
  map N_of_ascii (list_ascii_of_string s).

(** The values of the program: what JSON decoding yields.  A [dict] keeps its
    items in insertion order; its keys are strings.  Where a key occurs twice
    in the item list the first occurrence is the item of the mapping. *)
Inductive value : Type :=
| VNone
| VBool (b : bool)
| VInt (z : Z)
| VFloat (f : float)
| VStr (s : pystr)
| VList (l : list value)
| VDict (d : list (pystr * value)).

(** Exceptions, by the class hierarchy the handlers of the program
    distinguish: [except Exception] catches the first four,
    [except KeyboardInterrupt] the fifth, and neither catches the last
    (a [BaseException] such as [SystemExit]). *)
Inductive exn : Type :=
| TypeError
| AttributeError
| KeyError
| ExternalError (code : N)   (* network, decoding or I/O error of a collaborator *)
| KeyboardInterrupt
| OtherBaseException.

Definition is_Exception (e : exn) : bool :=
  match e with
  | KeyboardInterrupt | OtherBaseException => false
  | _ => true
  end.

Definition is_KeyboardInterrupt (e : exn) : bool :=
  match e with
  | KeyboardInterrupt => true
  | _ => false
  end.

(** The outcome of evaluating an expression or a call. *)
Inductive result (A : Type) : Type :=
| Ok (a : A)
| Raise (e : exn).
Arguments Ok {A} a.
Arguments Raise {A} e.

Definition bind {A B : Type} (c : result A) (k : A -> result B) : result B :=
  match c with
  | Ok a => k a
  | Raise e => Raise e
  end.

End Py.

Import Py.

Declare Scope py_scope.
Delimit Scope py_scope with py.
Notation "x <- c ;; k" := (bind c (fun x => k))
  (at level 61, c at next level, right associativity) : py_scope.
Local Open Scope py_scope.

(** *** Strings *)

Fixpoint pystr_eqb (s t : pystr) : bool :=
  match s, t with
  | [], [] => true
  | c :: s', c' :: t' => (c =? c')%N && pystr_eqb s' t'
  | _, _ => false
  end.

(** [str.isspace] on one code point: the table of CPython's
    [_PyUnicode_IsWhitespace]. *)
Definition py_isspace (c : N) : bool :=
  ((9 <=? c) && (c <=? 13) || (28 <=? c) && (c <=? 32)
   || (c =? 133) || (c =? 160) || (c =? 5760)
   || (8192 <=? c) && (c <=? 8202)
   || (c =? 8232) || (c =? 8233) || (c =? 8239) || (c =? 8287)
   || (c =? 12288))%N.

Fixpoint lstrip (s : pystr) : pystr :=
  match s with
  | [] => []
  | c :: s' => if py_isspace c then lstrip s' else s
  end.

Definition rstrip (s : pystr) : pystr := rev (lstrip (rev s)).

(** [s.strip()]: leading, then trailing whitespace removed. *)
Definition strip (s : pystr) : pystr := rstrip (lstrip s).

(** *** Dictionaries *)

Fixpoint lookup (d : list (pystr * value)) (k : pystr) : option value :=
  match d with
  | [] => None
  | (k', v) :: d' => if pystr_eqb k' k then Some v else lookup d' k
  end.

(** The keys in insertion order, each once. *)
Fixpoint dict_keys (d : list (pystr * value)) (seen : list pystr) : list pystr :=
  match d with
  | [] => []
  | (k, _) :: d' =>
      if existsb (pystr_eqb k) seen then dict_keys d' seen
      else k :: dict_keys d' (k :: seen)
  end.

(** *** Truth value and equality *)

Definition py_truthy (v : value) : bool :=
  match v with
  | VNone => false
  | VBool b => b
  | VInt z => negb (z =? 0)
  | VFloat f => negb (PrimFloat.eqb f PrimFloat.zero)
  | VStr s => match s with [] => false | _ => true end
  | VList l => match l with [] => false | _ => true end
  | VDict d => match d with [] => false | _ => true end
  end.

(** An [int] against a [float]: Python compares the exact values. *)
Definition float_eqb_Z (f : float) (z : Z) : bool :=
  match Prim2SF f with
  | S754_zero _ => z =? 0
  | S754_finite sign m e =>
      let zm := if sign then Z.neg m else Z.pos m in
      if 0 <=? e then z =? zm * 2 ^ e else z * 2 ^ (- e) =? zm
  | _ => false
  end.

Definition Z_of_bool (b : bool) : Z := if b then 1 else 0.

(** [a == b].  [bool] is a subclass of [int]; numbers compare by value;
    sequences compare item by item; mappings compare as sets of items.
    Values of unrelated types are unequal.  Items are compared by value:
    Python also takes an item that is the very same object as equal, which
    differs from this only for a NaN shared by two containers. *)
Fixpoint py_eq (a b : value) {struct a} : bool :=
  match a, b with
  | VNone, VNone => true
  | VBool x, VBool y => Bool.eqb x y
  | VBool x, VInt z | VInt z, VBool x => Z_of_bool x =? z
  | VBool x, VFloat f | VFloat f, VBool x => float_eqb_Z f (Z_of_bool x)
  | VInt x, VInt y => x =? y
  | VInt z, VFloat f | VFloat f, VInt z => float_eqb_Z f z
  | VFloat f, VFloat g => PrimFloat.eqb f g
  | VStr s, VStr t => pystr_eqb s t
  | VList l, VList m =>
      (fix items (l m : list value) {struct l} : bool :=
         match l, m with
         | [], [] => true
         | x :: l', y :: m' => py_eq x y && items l' m'
         | _, _ => false
         end) l m
  | VDict d, VDict d' =>
      (length (dict_keys d []) =? length (dict_keys d' []))%nat
      && (fix items (d0 : list (pystr * value)) (seen : list pystr)
              {struct d0} : bool :=
            match d0 with
            | [] => true
            | (k, v) :: d1 =>
                (if existsb (pystr_eqb k) seen then true
                 else match lookup d' k with
                      | Some v' => py_eq v v'
                      | None => false
                      end)
                && items d1 (k :: seen)
            end) d []
  | _, _ => false
  end.

(** *** The operations the program applies to values *)

Definition isinstance_dict (v : value) : bool :=
  match v with VDict _ => true | _ => false end.

Definition isinstance_str (v : value) : bool :=
  match v with VStr _ => true | _ => false end.

(** [v.get(key, default)]: only a [dict] has the method. *)
Definition py_get (v : value) (key : pystr) (default : value) : result value :=
  match v with
  | VDict d => Ok (match lookup d key with Some x => x | None => default end)
  | _ => Raise AttributeError
  end.

(** [key in v], for a string key. *)
Definition py_contains (v : value) (key : pystr) : result bool :=
  match v with
  | VDict d => Ok (match lookup d key with Some _ => true | None => false end)
  | VList l => Ok (existsb (py_eq (VStr key)) l)
  | VStr s =>
      Ok ((fix sub (s : pystr) : bool :=
             pystr_eqb (firstn (length key) s) key
             || match s with [] => false | _ :: s' => sub s' end) s)
  | _ => Raise TypeError
  end.

(** [v[key]], for a string key. *)
Definition py_getitem (v : value) (key : pystr) : result value :=
  match v with
  | VDict d => match lookup d key with Some x => Ok x | None => Raise KeyError end
  | _ => Raise TypeError
  end.

(** The items iteration yields, as [list.extend] consumes them: the items of
    a list, the characters of a string, the keys of a mapping. *)
Definition py_iter (v : value) : result (list value) :=
  match v with
  | VList l => Ok l
  | VStr s => Ok (map (fun c => VStr [c]) s)
  | VDict d => Ok (map VStr (dict_keys d []))
  | _ => Raise TypeError
  end.

(** [v.strip()]: only a [str] has the method. *)
Definition py_strip (v : value) : result value :=
  match v with
  | VStr s => Ok (VStr (strip s))
  | _ => Raise AttributeError
  end.

(** *** Control flow *)

(** [for x in items: body], where the body updates the state [s] or raises. *)
Fixpoint for_each {S : Type} (body : S -> value -> result S)
    (items : list value) (s : S) : result S :=
  match items with
  | [] => Ok s
  | x :: rest => s' <- body s x ;; for_each body rest s'
  end.

(** ** Classifier: [filter_current_markets] *)

(** One iteration of the loop over [markets]; the state is [current]. *)
Definition filter_current_body (current : list value) (market : value)
    : result (list value) :=
  if negb (isinstance_dict market) then Ok current          (* continue *)
  else
    is_closed <- py_get market (lit "closed") (VBool true) ;;
    is_archived <- py_get market (lit "archived") (VBool true) ;;
    if negb (py_truthy is_closed) && negb (py_truthy is_archived)
    then Ok (current ++ [market])
    else Ok current.

Definition filter_current_markets (markets : list value) : result (list value) :=
  for_each filter_current_body markets [].

(** ** Extractor: [extract_market_names] *)

Definition name_fields : list pystr :=
  [lit "question"; lit "title"; lit "name"; lit "description"; lit "market_slug"].

(** The inner loop over the preference list; [name] is the variable of the
    source, left as it is when no field qualifies.  The [break] ends the
    scan at the first field that qualifies. *)
Fixpoint scan_fields (market : value) (fields : list pystr) (name : value)
    : result value :=
  match fields with
  | [] => Ok name
  | field :: rest =>
      value <- py_get market field VNone ;;
      qualifies <- (if isinstance_str value
                    then stripped <- py_strip value ;; Ok (py_truthy stripped)
                    else Ok false) ;;
      if qualifies
      then py_strip value                                   (* break *)
      else scan_fields market rest name
  end.

(** One iteration of the loop over [markets]; the state is [names]. *)
Definition extract_names_body (names : list value) (market : value)
    : result (list value) :=
  if negb (isinstance_dict market) then Ok names            (* continue *)
  else
    name <- scan_fields market name_fields VNone ;;
    if py_truthy name then Ok (names ++ [name]) else Ok names.

Definition extract_market_names (markets : list value) : result (list value) :=
  for_each extract_names_body markets [].

(** ** Paginator: [fetch_all_markets] *)

Definition DEFAULT_OUTPUT_FILENAME : pystr := lit "markets.json".
Definition DEFAULT_NAMES_OUTPUT_FILENAME : pystr := lit "market_names.json".
Definition DEFAULT_CURRENT_MARKETS_FILENAME : pystr := lit "current_markets.json".
Definition DEFAULT_CURRENT_NAMES_FILENAME : pystr := lit "current_market_names.json".
Definition MAX_PAGES : Z := 100.

(** The client object: [ClobClient(api_url)] keeps the host. *)
Record ClobClient : Type := { host : pystr }.

(** The variables of the loop. *)
Record loop_state : Type := {
  all_markets : list value;
  cursor : value;
  page_count : Z
}.

(** How the body of the [try] leaves an iteration. *)
Inductive control : Type :=
| Continue (s : loop_state)
| Break (s : loop_state).

(** One request, as the client saw it: the cursor sent and what came back.
    The list of requests of a run is kept beside the result so that
    properties about the number and order of page fetches can be stated; the
    program itself does not read it. *)
Record call : Type := {
  sent : value;
  received : result value
}.

(** What the loop does with a response: the body of the [try] after the
    request.  The operations that can raise come no later than the
    [extend], which raises before it changes the list, so an exception
    leaves the variables of the loop as they were. *)
Definition handle_response (response : value) (s : loop_state) : result control :=
  has_data <- (if isinstance_dict response
               then py_contains response (lit "data")
               else Ok false) ;;
  if has_data then
    markets <- py_getitem response (lit "data") ;;
    items <- py_iter markets ;;                     (* all_markets.extend(markets) *)
    let all_markets' := all_markets s ++ items in
    next_cursor <- py_get response (lit "next_cursor") VNone ;;
    let page_count' := page_count s + 1 in
    if negb (py_truthy next_cursor) || py_eq next_cursor (cursor s)
    then Ok (Break {| all_markets := all_markets'; cursor := cursor s;
                      page_count := page_count' |})
    else Ok (Continue {| all_markets := all_markets'; cursor := next_cursor;
                         page_count := page_count' |})
  else Ok (Break s).

Section Program.

(** Everything outside the process: the remote service and the file
    system. *)
Variable World : Type.

(** [client.get_markets(next_cursor=cursor)] *)
Variable get_markets : ClobClient -> value -> World -> result value * World.

(** The result of a run: what the function returned or let escape, the
    world it left, and its requests in order. *)
Record run : Type := {
  returned : result (list value);
  world : World;
  calls : list call
}.

(** The [while] loop.  [fuel] bounds the number of evaluations of the loop
    condition; [None] would mean the bound was too small. *)
Fixpoint while_loop (fuel : nat) (client : ClobClient) (max_pages : Z)
    (s : loop_state) (w : World) (log : list call) : option run :=
  match fuel with
  | O => None
  | S fuel' =>
      if page_count s <? max_pages then
        let (response, w') := get_markets client (cursor s) w in
        let log' := log ++ [{| sent := cursor s; received := response |}] in
        match (r <- response ;; handle_response r s) with
        | Ok (Continue s') => while_loop fuel' client max_pages s' w' log'
        | Ok (Break s') =>
            Some {| returned := Ok (all_markets s'); world := w'; calls := log' |}
        | Raise e =>
            if is_Exception e                      (* except Exception: break *)
            then Some {| returned := Ok (all_markets s); world := w'; calls := log' |}
            else Some {| returned := Raise e; world := w'; calls := log' |}
        end
      else Some {| returned := Ok (all_markets s); world := w; calls := log |}
  end.

Definition fetch_all_markets (api_url : pystr) (max_pages : Z) (w : World)
    : option run :=
  let client := {| host := api_url |} in
  while_loop (S (Z.to_nat max_pages)) client max_pages
    {| all_markets := []; cursor := VStr (lit "MA=="); page_count := 0 |} w [].

(** ** Entry point: [main] *)

(** The parsed command line. *)
Record Args : Type := {
  api_url : pystr;
  out : option pystr;
  names_out : option pystr;
  indent : Z;
  max_pages : Z;
  current : bool
}.

Inductive path : Type :=
| Path (s : pystr)                 (* Path(s) *)
| ScriptDir (filename : pystr).    (* script_dir / filename *)

(** [save_json(data, filepath, indent)] *)
Variable save_json : value -> path -> Z -> World -> result unit * World.

(** The five messages [main] prints to standard output inside its [try],
    by what they report: the counts and the path that fill the format
    string. *)
Inductive message : Type :=
| Filtered (current_count total : nat)
    (* Filtered to {} current markets (from {} total) *)
| SavedCurrentMarkets (count : nat) (file : path)
    (* Saved {} current markets to {} *)
| SavedCurrentNames (count : nat) (file : path)
    (* Saved {} current market names to {} *)
| SavedMarkets (count : nat) (file : path)
    (* Saved {} markets to {} *)
| SavedNames (count : nat) (file : path).
    (* Saved {} market names to {} *)

(** [print(...)] to standard output.  It can raise: the messages start with
    a check mark, which a standard output that is not UTF-8 cannot encode.
    Whether it raises depends on the message and on the world; the text
    written is not part of the world. *)
Variable print : message -> World -> result unit.

(** Computations of [main]: they act on the world, may raise, and carry
    the loop bound of the fetch. *)
Definition io (A : Type) : Type := World -> option (result A * World).

Definition io_ret {A : Type} (a : A) : io A := fun w => Some (Ok a, w).

Definition io_bind {A B : Type} (c : io A) (k : A -> io B) : io B :=
  fun w =>
    match c w with
    | None => None
    | Some (Ok a, w') => k a w'
    | Some (Raise e, w') => Some (Raise e, w')
    end.

Notation "x <~ c ;; k" := (io_bind c (fun x => k))
  (at level 61, c at next level, right associativity) : py_scope.

(** A computation that does not touch the world, and a call that does. *)
Definition io_eval {A : Type} (r : result A) : io A := fun w => Some (r, w).

Definition io_call {A : Type} (f : World -> result A * World) : io A :=
  fun w => Some (f w).

Definition io_print (m : message) : io unit :=
  fun w => Some (print m w, w).

Definition io_fetch (api_url : pystr) (max_pages : Z) : io (list value) :=
  fun w =>
    match fetch_all_markets api_url max_pages w with
    | None => None
    | Some r => Some (returned r, world r)
    end.

(** The body of the [try] of [main], with the two paths computed before
    it; it yields the value of the [return] it reaches.  The messages to
    standard error are not part of the model. *)
Definition main_try (args : Args) : io Z :=
  let markets_path :=
    match out args with
    | Some s => if py_truthy (VStr s) then Path s
                else ScriptDir DEFAULT_OUTPUT_FILENAME
    | None => ScriptDir DEFAULT_OUTPUT_FILENAME
    end in
  let names_path :=
    match names_out args with
    | Some s => if py_truthy (VStr s) then Path s
                else ScriptDir DEFAULT_NAMES_OUTPUT_FILENAME
    | None => ScriptDir DEFAULT_NAMES_OUTPUT_FILENAME
    end in
  all_markets <~ io_fetch (api_url args) (max_pages args) ;;
  if negb (py_truthy (VList all_markets)) then io_ret 1
  else if current args then
    current_markets <~ io_eval (filter_current_markets all_markets) ;;
    _ <~ io_print (Filtered (length current_markets) (length all_markets)) ;;
    if negb (py_truthy (VList current_markets)) then io_ret 1
    else
      let current_markets_path := ScriptDir DEFAULT_CURRENT_MARKETS_FILENAME in
      let current_names_path := ScriptDir DEFAULT_CURRENT_NAMES_FILENAME in
      _ <~ io_call (save_json (VList current_markets) current_markets_path
                      (indent args)) ;;
      _ <~ io_print (SavedCurrentMarkets (length current_markets)
                       current_markets_path) ;;
      names <~ io_eval (extract_market_names current_markets) ;;
      _ <~ io_call (save_json (VList names) current_names_path (indent args)) ;;
      _ <~ io_print (SavedCurrentNames (length names) current_names_path) ;;
      io_ret 0
  else
    _ <~ io_call (save_json (VList all_markets) markets_path (indent args)) ;;
    _ <~ io_print (SavedMarkets (length all_markets) markets_path) ;;
    names <~ io_eval (extract_market_names all_markets) ;;
    _ <~ io_call (save_json (VList names) names_path (indent args)) ;;
    _ <~ io_print (SavedNames (length names) names_path) ;;
    io_ret 0.

(** [main], from the [try] on: the two handlers.  An exception neither
    handler names leaves [main]. *)
Definition main (args : Args) : io Z :=
  fun w =>
    match main_try args w with
    | None => None
    | Some (Ok code, w') => Some (Ok code, w')
    | Some (Raise e, w') =>
        if is_KeyboardInterrupt e then Some (Ok 130, w')
        else if is_Exception e then Some (Ok 1, w')
        else Some (Raise e, w')
    end.

End Program.

Arguments returned {World} r.
Arguments world {World} r.
Arguments calls {World} r.

(** ** The vocabulary of the specification *)

(** *** Classifier *)

(** What the loop of [filter_current_markets] keeps. *)
Definition is_current (market : value) : bool :=
  match market with
  | VDict d =>
      negb (py_truthy (match lookup d (lit "closed") with
                       | Some v => v | None => VBool true end))
      && negb (py_truthy (match lookup d (lit "archived") with
                          | Some v => v | None => VBool true end))
  | _ => false
  end.

(** "Its [key] field is present and equals false". *)
Definition present_and_false (market : value) (key : pystr) : bool :=
  match market with
  | VDict d =>
      match lookup d key with
      | Some v => py_eq v (VBool false)
      | None => false
      end
  | _ => false
  end.

(** The policy of the specification: a record is current when [closed] and
    [archived] are both present and equal to false. *)
Definition spec_current (market : value) : bool :=
  present_and_false market (lit "closed")
  && present_and_false market (lit "archived").

(** The flags of a record are booleans where they are present. *)
Definition flag_is_bool (market : value) (key : pystr) : bool :=
  match market with
  | VDict d =>
      match lookup d key with
      | Some (VBool _) | None => true
      | Some _ => false
      end
  | _ => true
  end.

Definition boolean_flags (market : value) : bool :=
  flag_is_bool market (lit "closed") && flag_is_bool market (lit "archived").

(** *** Extractor *)

(** The name a field offers: its value when that is a string which is not
    empty once trimmed, trimmed. *)
Definition offers (m : list (pystr * value)) (field : pystr) : option pystr :=
  match lookup m field with
  | Some (VStr s) =>
      match strip s with
      | [] => None
      | n => Some n
      end
  | _ => None
  end.

(** [n] is the name of the first field, in the order of [fields], that
    offers one. *)
Definition chosen (fields : list pystr) (m : list (pystr * value)) (n : pystr)
    : Prop :=
  exists before field after,
    fields = before ++ field :: after
    /\ offers m field = Some n
    /\ Forall (fun f => offers m f = None) before.

(** The names of a list of records under the policy of the specification:
    one entry for each mapping one of whose preferred fields offers a name,
    in the order of the records, and nothing for the others. *)
Inductive names_of : list value -> list pystr -> Prop :=
| names_done : names_of [] []
| names_entry m n rest names :
    chosen name_fields m n ->
    names_of rest names ->
    names_of (VDict m :: rest) (n :: names)
| names_no_field m rest names :
    Forall (fun f => offers m f = None) name_fields ->
    names_of rest names ->
    names_of (VDict m :: rest) names
| names_not_mapping v rest names :
    isinstance_dict v = false ->
    names_of rest names ->
    names_of (v :: rest) names.

(** The first name the fields offer, scanning them in order. *)
Fixpoint first_offer (m : list (pystr * value)) (fields : list pystr)
    : option pystr :=
  match fields with
  | [] => None
  | field :: rest =>
      match offers m field with
      | Some n => Some n
      | None => first_offer m rest
      end
  end.

(** What a record contributes to the list of names. *)
Definition name_entry (market : value) : list value :=
  match market with
  | VDict m =>
      match first_offer m name_fields with
      | Some n => [VStr n]
      | None => []
      end
  | _ => []
  end.

(** A string with no whitespace at either end. *)
Definition trimmed (s : pystr) : Prop :=
  match s with
  | [] => True
  | c :: _ => py_isspace c = false /\ py_isspace (last s c) = false
  end.

(** [n] is the trimmed value of a preferred field of one of the records,
    and is not empty. *)
Definition trimmed_field_of (markets : list value) (n : pystr) : Prop :=
  n <> [] /\ trimmed n /\ strip n = n
  /\ exists m field raw,
       In (VDict m) markets /\ In field name_fields
       /\ lookup m field = Some (VStr raw) /\ n = strip raw.

(** *** Paginator *)

(** The record sequence of a page: the items of its [data] field, when the
    response is a mapping that has one and it is a sequence. *)
Definition page_records (response : value) : option (list value) :=
  match response with
  | VDict d =>
      match lookup d (lit "data") with
      | Some markets =>
          match py_iter markets with
          | Ok items => Some items
          | Raise _ => None
          end
      | None => None
      end
  | _ => None
  end.

(** Malformed: not a mapping that contains the field [data]. *)
Definition malformed (response : value) : bool :=
  match response with
  | VDict d =>
      match lookup d (lit "data") with
      | Some _ => false
      | None => true
      end
  | _ => true
  end.

(** The continuation token of a page: [None] when the field is absent. *)
Definition next_token (response : value) : value :=
  match response with
  | VDict d =>
      match lookup d (lit "next_cursor") with
      | Some v => v
      | None => VNone
      end
  | _ => VNone
  end.

(** The token of [response] is absent or empty, or equals the cursor [c]
    that was sent. *)
Definition stale_token (response c : value) : bool :=
  negb (py_truthy (next_token response)) || py_eq (next_token response) c.

(** What a request contributed to the result set. *)
Definition page_items (c : call) : list value :=
  match received c with
  | Ok response =>
      match page_records response with
      | Some items => items
      | None => []
      end
  | Raise _ => []
  end.

(** A request after which the loop goes on: a page with records and a
    token that is neither empty nor the cursor sent. *)
Definition continuing (c : call) : bool :=
  match received c with
  | Ok response =>
      match page_records response with
      | Some _ => negb (stale_token response (sent c))
      | None => false
      end
  | Raise _ => false
  end.

(** The exception a request lets through the handler of the loop. *)
Definition escaping (c : call) : option exn :=
  match received c with
  | Raise e => if is_Exception e then None else Some e
  | Ok _ => None
  end.

(** What a run returns, read off its requests: the concatenation of the
    pages, unless the last request let an exception through. *)
Definition outcome_of (acc : list value) (requests : list call)
    : result (list value) :=
  match requests with
  | [] => Ok acc
  | c :: _ =>
      match escaping (last requests c) with
      | Some e => Raise e
      | None => Ok (acc ++ flat_map page_items requests)
      end
  end.

(** A request that met a fault: the client raised an [Exception], or the
    response was malformed. *)
Definition faulty (c : call) : bool :=
  match received c with
  | Raise e => is_Exception e
  | Ok response => malformed response
  end.


(** A request of the log is one the client answered. *)
Definition answered {World : Type}
    (get_markets : ClobClient -> value -> World -> result value * World)
    (client : ClobClient) (c : call) : Prop :=
  exists w, received c = fst (get_markets client (sent c) w).

(** *** Entry point *)


(** A writer and a standard output that always succeed. *)
Definition writer_succeeds {World : Type}
    (save_json : value -> path -> Z -> World -> result unit * World) : Prop :=
  forall data p i w, fst (save_json data p i w) = Ok tt.

Definition printer_succeeds {World : Type}
    (print : message -> World -> result unit) : Prop :=
  forall m w, print m w = Ok tt.

(** The records [main] goes on to save: all of them, or the current ones. *)
Definition selected (args : Args) (markets : list value) : list value :=
  if current args then filter is_current markets else markets.


(** Where [main] saves them, and their names. *)
Definition markets_path (args : Args) : path :=
  if current args then ScriptDir DEFAULT_CURRENT_MARKETS_FILENAME
  else match out args with
       | Some s => if py_truthy (VStr s) then Path s
                   else ScriptDir DEFAULT_OUTPUT_FILENAME
       | None => ScriptDir DEFAULT_OUTPUT_FILENAME
       end.

Definition names_path (args : Args) : path :=
  if current args then ScriptDir DEFAULT_CURRENT_NAMES_FILENAME
  else match names_out args with
       | Some s => if py_truthy (VStr s) then Path s
                   else ScriptDir DEFAULT_NAMES_OUTPUT_FILENAME
       | None => ScriptDir DEFAULT_NAMES_OUTPUT_FILENAME
       end.


(** A step of [main] after the fetch: a write or a message. *)
Definition step (World : Type) : Type := World -> result unit * World.

Definition print_step {World : Type}
    (print : message -> World -> result unit) (m : message) : step World :=
  fun w => (print m w, w).

(** The steps in order, up to the first that raises: the exception, if
    there is one, and the world that is left. *)
Fixpoint perform {World : Type} (steps : list (step World)) (w : World)
    : option exn * World :=
  match steps with
  | [] => (None, w)
  | s :: rest =>
      match s w with
      | (Ok _, w') => perform rest w'
      | (Raise e, w') => (Some e, w')
      end
  end.

(** The two writes of [main], each followed by its message. *)
Definition save_steps {World : Type}
    (save_json : value -> path -> Z -> World -> result unit * World)
    (print : message -> World -> result unit)
    (args : Args) (saved names : list value) : list (step World) :=
  [ save_json (VList saved) (markets_path args) (indent args);
    print_step print
      (if current args
       then SavedCurrentMarkets (length saved) (markets_path args)
       else SavedMarkets (length saved) (markets_path args));
    save_json (VList names) (names_path args) (indent args);
    print_step print
      (if current args
       then SavedCurrentNames (length names) (names_path args)
       else SavedNames (length names) (names_path args)) ].

(** The steps of [main] once it has fetched [markets], kept [saved] of them
    and has their [names]: in current-only mode the message about the
    filter, then, when there is a record to save, the writes. *)
Definition main_steps {World : Type}
    (save_json : value -> path -> Z -> World -> result unit * World)
    (print : message -> World -> result unit)
    (args : Args) (markets saved names : list value) : list (step World) :=
  (if current args
   then [print_step print (Filtered (length saved) (length markets))]
   else [])
  ++ match saved with
     | [] => []
     | _ :: _ => save_steps save_json print args saved names
     end.

(** The code [main] returns when no step raises: 1 when there is nothing
    to save. *)
Definition main_code (saved : list value) : Z :=
  match saved with
  | [] => 1
  | _ :: _ => 0
  end.


(** *** Further vocabulary *)

(** [l] is [m] with some items left out, the rest in the same order. *)
Inductive subsequence : list value -> list value -> Prop :=
| subsequence_nil : subsequence [] []
| subsequence_keep x l m : subsequence l m -> subsequence (x :: l) (x :: m)
| subsequence_drop x l m : subsequence l m -> subsequence l (x :: m).

(** All characters of [s] are whitespace. *)
Definition all_space (s : pystr) : Prop :=
  Forall (fun c => py_isspace c = true) s.

(** The command line [args] with other values for [--out] and
    [--names-out]. *)
Definition with_outputs (args : Args) (out' names_out' : option pystr) : Args :=
  {| api_url := api_url args; out := out'; names_out := names_out';
     indent := indent args; max_pages := max_pages args;
     current := current args |}.

(** The command line [args] with another page cap. *)
Definition with_max_pages (args : Args) (n : Z) : Args :=
  {| api_url := api_url args; out := out args; names_out := names_out args;
     indent := indent args; max_pages := n; current := current args |}.


(** A service that never raises anything but an [Exception]. *)
Definition service_faults_only {World : Type}
    (get_markets : ClobClient -> value -> World -> result value * World)
    : Prop :=
  forall client c w e,
    fst (get_markets client c w) = Raise e -> is_Exception e = true.


(** ** Example data *)

(** A record whose two flags are JSON [null]. *)
Definition null_flags_market : value :=
  VDict [(lit "closed", VNone); (lit "archived", VNone)].

(** The two records of the specification's scenarios, and one whose chosen
    field carries surrounding whitespace. *)
Definition empty_question_market : value :=
  VDict [(lit "question", VStr []); (lit "title", VStr (lit "X"))].

Definition blank_title_market : value :=
  VDict [(lit "title", VStr (lit "  ")); (lit "name", VStr (lit "Will it rain?"))].

Definition padded_question_market : value :=
  VDict [(lit "question", VStr (lit "  Will it snow? "));
         (lit "title", VStr (lit "Snow"))].

(** A list with entries that are not mappings among the records. *)
Definition mixed_markets : list value :=
  [VNone; blank_title_market; VInt 7; VStr (lit "question");
   VList [empty_question_market]; empty_question_market].

(** *** Services for the scenarios of the specification

    The world of these services is the number of requests served. *)

Definition record (n : Z) : value :=
  VDict [(lit "question", VStr (lit "Q")); (lit "id", VInt n)].

Definition page (records : list value) (token : option pystr) : value :=
  VDict ((lit "data", VList records)
         :: match token with
            | Some t => [(lit "next_cursor", VStr t)]
            | None => []
            end).

(** Page 1 has two records and the token "B"; page 2, served for "B", has
    one record and no token. *)
Definition two_page_service (_ : ClobClient) (c : value) (served : nat)
    : result value * nat :=
  (if py_eq c (VStr (lit "MA==")) then Ok (page [record 1; record 2] (Some (lit "B")))
   else if py_eq c (VStr (lit "B")) then Ok (page [record 3] None)
   else Raise (ExternalError 404),
   S served).

(** A service whose first answer has no [data] field. *)
Definition malformed_service (_ : ClobClient) (_ : value) (served : nat)
    : result value * nat :=
  (Ok (VDict [(lit "error", VStr (lit "unavailable"))]), S served).

(** A service that serves one page and then fails with a network error. *)
Definition failing_service (_ : ClobClient) (c : value) (served : nat)
    : result value * nat :=
  (if py_eq c (VStr (lit "MA==")) then Ok (page [record 1; record 2] (Some (lit "B")))
   else Raise (ExternalError 503),
   S served).

(** A service that returns the cursor it was sent as the token. *)
Definition echo_service (_ : ClobClient) (c : value) (served : nat)
    : result value * nat :=
  (Ok (VDict [(lit "data", VList [record 1]); (lit "next_cursor", c)]), S served).

(** A service that always has a further page: the token differs from the
    cursor sent, whatever that is. *)
Definition endless_service (_ : ClobClient) (c : value) (served : nat)
    : result value * nat :=
  (Ok (page [record (Z.of_nat served)]
         (Some (if py_eq (VStr (lit "A")) c then lit "B" else lit "A"))),
   S served).

(** A service on which the user interrupts the first request. *)
Definition interrupted_service (_ : ClobClient) (_ : value) (served : nat)
    : result value * nat :=
  (Raise KeyboardInterrupt, S served).

(** A service with one page of two records, one of them current. *)
Definition one_page_service (_ : ClobClient) (_ : value) (served : nat)
    : result value * nat :=
  (Ok (page [VDict [(lit "question", VStr (lit "Open?"));
                    (lit "closed", VBool false); (lit "archived", VBool false)];
             VDict [(lit "question", VStr (lit "Done?"));
                    (lit "closed", VBool true); (lit "archived", VBool false)]]
         None),
   S served).

(** A service with one page whose only record is closed. *)
Definition closed_page_service (_ : ClobClient) (_ : value) (served : nat)
    : result value * nat :=
  (Ok (page [VDict [(lit "question", VStr (lit "Done?"));
                    (lit "closed", VBool true); (lit "archived", VBool false)]]
         None),
   S served).

(** A writer that succeeds, and one whose disk is full. *)
Definition writing (_ : value) (_ : path) (_ : Z) (served : nat)
    : result unit * nat :=
  (Ok tt, served).

Definition disk_full (_ : value) (_ : path) (_ : Z) (served : nat)
    : result unit * nat :=
  (Raise (ExternalError 28), served).

(** A writer that fails, or is interrupted, only when it writes the names
    of all markets. *)
Definition names_write_raises (e : exn) (_ : value) (p : path) (_ : Z)
    (served : nat) : result unit * nat :=
  (match p with
   | ScriptDir f =>
       if pystr_eqb f DEFAULT_NAMES_OUTPUT_FILENAME then Raise e else Ok tt
   | Path _ => Ok tt
   end, served).

(** A standard output that takes every message, and one that cannot encode
    the check mark the messages start with. *)
Definition utf8_stdout (_ : message) (_ : nat) : result unit := Ok tt.

Definition ascii_stdout (_ : message) (_ : nat) : result unit :=
  Raise (ExternalError 1).

Definition default_args (current_only : bool) : Args :=
  {| api_url := lit "https://clob.polymarket.com"; out := None;
     names_out := None; indent := 2; max_pages := MAX_PAGES;
     current := current_only |}.

Definition example_url : pystr := lit "https://clob.polymarket.com".

Definition first_cursor : value := VStr (lit "MA==").

(** The run of the two-page scenario. *)
Definition two_page_run : run nat :=
  {| returned := Ok [record 1; record 2; record 3];
     world := 2%nat;
     calls := [ {| sent := first_cursor;
                   received := Ok (page [record 1; record 2] (Some (lit "B"))) |};
                {| sent := VStr (lit "B");
                   received := Ok (page [record 3] None) |} ] |}.

(** The run against the service that fails on its second request. *)
Definition failing_run : run nat :=
  {| returned := Ok [record 1; record 2];
     world := 2%nat;
     calls := [ {| sent := first_cursor;
                   received := Ok (page [record 1; record 2] (Some (lit "B"))) |};
                {| sent := VStr (lit "B");
                   received := Raise (ExternalError 503) |} ] |}.

(** The run against the service that echoes the cursor. *)
Definition echo_run : run nat :=
  {| returned := Ok [record 1];
     world := 1%nat;
     calls := [ {| sent := first_cursor;
                   received := Ok (VDict [(lit "data", VList [record 1]);
                                          (lit "next_cursor", first_cursor)]) |} ] |}.


(** A record whose flags are false as truth values without being [False]. *)
Definition falsy_flags_market : value :=
  VDict [(lit "closed", VInt 0); (lit "archived", VStr [])].

(** Records with boolean flags: one open, one closed, one archived. *)
Definition open_market : value :=
  VDict [(lit "question", VStr (lit "Open?"));
         (lit "closed", VBool false); (lit "archived", VBool false)].

Definition closed_market : value :=
  VDict [(lit "question", VStr (lit "Done?"));
         (lit "closed", VBool true); (lit "archived", VBool false)].

Definition archived_market : value :=
  VDict [(lit "title", VStr (lit "Old")); (lit "archived", VBool true);
         (lit "closed", VBool false)].

(** The items of [blank_title_market] in another order. *)
Definition reordered_blank_title_market : value :=
  VDict [(lit "name", VStr (lit "Will it rain?")); (lit "title", VStr (lit "  "))].


(** A service whose second answer has [null] for [data]. *)
Definition null_data_service (_ : ClobClient) (c : value) (served : nat)
    : result value * nat :=
  (if py_eq c (VStr (lit "MA==")) then Ok (page [record 1; record 2] (Some (lit "B")))
   else Ok (VDict [(lit "data", VNone); (lit "next_cursor", VStr (lit "C"))]),
   S served).

Definition null_data_run : run nat :=
  {| returned := Ok [record 1; record 2];
     world := 2%nat;
     calls := [ {| sent := first_cursor;
                   received := Ok (page [record 1; record 2] (Some (lit "B"))) |};
                {| sent := VStr (lit "B");
                   received := Ok (VDict [(lit "data", VNone);
                                          (lit "next_cursor", VStr (lit "C"))]) |} ] |}.

(** A service on which the user interrupts the second request. *)
Definition interrupted_later_service (_ : ClobClient) (c : value) (served : nat)
    : result value * nat :=
  (if py_eq c (VStr (lit "MA==")) then Ok (page [record 1; record 2] (Some (lit "B")))
   else Raise KeyboardInterrupt,
   S served).

Definition interrupted_later_run : run nat :=
  {| returned := Raise KeyboardInterrupt;
     world := 2%nat;
     calls := [ {| sent := first_cursor;
                   received := Ok (page [record 1; record 2] (Some (lit "B"))) |};
                {| sent := VStr (lit "B");
                   received := Raise KeyboardInterrupt |} ] |}.

(** The two-page scenario with a cap of one page. *)
Definition capped_two_page_run : run nat :=
  {| returned := Ok [record 1; record 2];
     world := 1%nat;
     calls := [ {| sent := first_cursor;
                   received := Ok (page [record 1; record 2] (Some (lit "B"))) |} ] |}.


(** * Properties *)

(** ** Strings and loops *)

Lemma pystr_eqb_eq (s t : pystr) : pystr_eqb s t = true <-> s = t.
Proof.
  revert t; induction s as [|c s IH]; intros [|c' t]; simpl;
    try (split; [discriminate | congruence]); try tauto.
  rewrite andb_true_iff, N.eqb_eq, IH.
  split; [intros [-> ->]; reflexivity | intros H; inversion H; auto].
Qed.

Lemma pystr_eqb_refl (s : pystr) : pystr_eqb s s = true.
Proof. apply pystr_eqb_eq; reflexivity. Qed.

Lemma for_each_app {S : Type} (body : S -> value -> result S)
    (l1 l2 : list value) (s : S) :
  for_each body (l1 ++ l2) s = (s' <- for_each body l1 s ;; for_each body l2 s').
Proof.
  revert s; induction l1 as [|x l1 IH]; intros s; simpl; [reflexivity|].
  destruct (body s x) as [s'|e]; simpl; [apply IH | reflexivity].
Qed.

(** A loop whose body only ever appends to its state collects what each
    item contributes, in order. *)
Lemma for_each_collect (body : list value -> value -> result (list value))
    (g : value -> list value) :
  (forall acc x, body acc x = Ok (acc ++ g x)) ->
  forall items acc, for_each body items acc = Ok (acc ++ flat_map g items).
Proof.
  intros Hbody items; induction items as [|x items IH]; intros acc; simpl.
  - rewrite app_nil_r; reflexivity.
  - rewrite Hbody; simpl. rewrite IH, app_assoc; reflexivity.
Qed.

Lemma flat_map_filter (p : value -> bool) (l : list value) :
  flat_map (fun x => if p x then [x] else []) l = filter p l.
Proof.
  induction l as [|x l IH]; simpl; [reflexivity|].
  rewrite IH; destruct (p x); reflexivity.
Qed.

(** ** Classifier *)

Lemma filter_current_body_spec (current : list value) (market : value) :
  filter_current_body current market
  = Ok (current ++ (if is_current market then [market] else [])).
Proof.
  unfold filter_current_body.
  destruct market; simpl; rewrite ?app_nil_r; try reflexivity.
  destruct (negb _ && negb _); simpl; rewrite ?app_nil_r; reflexivity.
Qed.

(** The classifier never raises: it is the order-preserving filter of the
    records the loop keeps. *)
Lemma filter_current_markets_filter (markets : list value) :
  filter_current_markets markets = Ok (filter is_current markets).
Proof.
  unfold filter_current_markets.
  rewrite (for_each_collect _ (fun m => if is_current m then [m] else [])).
  - simpl; rewrite flat_map_filter; reflexivity.
  - apply filter_current_body_spec.
Qed.

(** On records whose flags are booleans where present, what the loop keeps
    is what the policy of the specification calls current. *)
Lemma is_current_boolean_flags (market : value) :
  boolean_flags market = true -> is_current market = spec_current market.
Proof.
  unfold boolean_flags, is_current, spec_current, flag_is_bool, present_and_false.
  destruct market as [| | | | | |d]; try reflexivity.
  destruct (lookup d (lit "closed")) as [[|[]| | | | |]|];
    destruct (lookup d (lit "archived")) as [[|[]| | | | |]|];
    simpl; intros H; try discriminate H; reflexivity.
Qed.

Lemma filter_current_markets_boolean_flags (markets : list value) :
  forallb boolean_flags markets = true ->
  filter_current_markets markets = Ok (filter spec_current markets).
Proof.
  intros H; rewrite filter_current_markets_filter; f_equal.
  induction markets as [|m markets IH]; simpl in *; [reflexivity|].
  apply andb_true_iff in H as [Hm H].
  rewrite (is_current_boolean_flags m Hm), (IH H); reflexivity.
Qed.

(** A record that lacks either flag is never kept. *)
Lemma is_current_missing_flag (d : list (pystr * value)) :
  lookup d (lit "closed") = None \/ lookup d (lit "archived") = None ->
  is_current (VDict d) = false.
Proof.
  unfold is_current; intros [-> | ->]; simpl; [reflexivity|].
  apply andb_false_r.
Qed.

Lemma filter_length_le (p : value -> bool) (l : list value) :
  (length (filter p l) <= length l)%nat.
Proof.
  induction l as [|x l IH]; simpl; [lia|]. destruct (p x); simpl; lia.
Qed.

(** What the loop keeps has both flags, and both are false as truth
    values. *)
Lemma is_current_inv (market : value) :
  is_current market = true ->
  exists d is_closed is_archived,
    market = VDict d
    /\ lookup d (lit "closed") = Some is_closed
    /\ lookup d (lit "archived") = Some is_archived
    /\ py_truthy is_closed = false
    /\ py_truthy is_archived = false.
Proof.
  unfold is_current. destruct market as [| | | | | |d]; try discriminate.
  destruct (lookup d (lit "closed")) as [c|] eqn:Hclosed; [|discriminate].
  destruct (lookup d (lit "archived")) as [a|] eqn:Harchived;
    [|rewrite andb_false_r; discriminate].
  intros H. apply andb_true_iff in H as [Hc Ha].
  apply negb_true_iff in Hc, Ha.
  exists d, c, a. repeat split; assumption.
Qed.

(** What holds of the classifier on every input: it returns, the result is
    no longer than the input, and every record of it was kept by the loop. *)
Lemma filter_current_markets_sound (markets : list value) :
  exists current,
    filter_current_markets markets = Ok current
    /\ (length current <= length markets)%nat
    /\ Forall (fun m => is_current m = true) current.
Proof.
  exists (filter is_current markets). split; [|split].
  - apply filter_current_markets_filter.
  - apply filter_length_le.
  - apply Forall_forall. intros m Hm. apply filter_In in Hm. tauto.
Qed.


(** C1, at the input where the code and the claim part: a record whose
    [closed] and [archived] are both [null] has neither flag equal to false,
    so the policy excludes it, yet the loop tests the flags for truth and
    keeps it. *)
Theorem filter_current_markets_keeps_null_flags :
  filter_current_markets [null_flags_market] = Ok [null_flags_market]
  /\ present_and_false null_flags_market (lit "closed") = false
  /\ present_and_false null_flags_market (lit "archived") = false
  /\ filter spec_current [null_flags_market] = [].
Proof. repeat split; vm_compute; reflexivity. Qed.

(** C7: the classifier is idempotent: run on its own output it returns that
    output. *)
Theorem filter_current_markets_idempotent (markets : list value) :
  (current <- filter_current_markets markets ;; filter_current_markets current)
  = filter_current_markets markets.
Proof.
  rewrite filter_current_markets_filter; simpl.
  rewrite filter_current_markets_filter; f_equal.
  induction markets as [|m markets IH]; simpl; [reflexivity|].
  destruct (is_current m) eqn:Hm; simpl; [rewrite Hm, IH|]; auto.
Qed.

(** ** Trimming *)

Lemma lstrip_split (s : pystr) :
  exists u, s = u ++ lstrip s /\ Forall (fun c => py_isspace c = true) u.
Proof.
  induction s as [|c s [u [Hs Hu]]]; simpl.
  - exists []; split; [reflexivity | constructor].
  - destruct (py_isspace c) eqn:Hc.
    + exists (c :: u); split; [simpl; congruence | constructor; assumption].
    + exists []; split; [reflexivity | constructor].
Qed.

Lemma lstrip_head (s : pystr) (c : N) (t : pystr) :
  lstrip s = c :: t -> py_isspace c = false.
Proof.
  induction s as [|a s IH]; simpl; [discriminate|].
  destruct (py_isspace a) eqn:Ha; [exact IH|].
  intros H; inversion H; subst; exact Ha.
Qed.

Lemma lstrip_fixed (s : pystr) (c : N) (t : pystr) :
  s = c :: t -> py_isspace c = false -> lstrip s = s.
Proof. intros -> Hc; simpl; rewrite Hc; reflexivity. Qed.

Lemma rstrip_split (s : pystr) :
  exists u, s = rstrip s ++ u /\ Forall (fun c => py_isspace c = true) u.
Proof.
  unfold rstrip. destruct (lstrip_split (rev s)) as [u [Hs Hu]].
  exists (rev u); split.
  - rewrite <- rev_app_distr, <- Hs, rev_involutive; reflexivity.
  - apply Forall_rev; assumption.
Qed.

Lemma last_rev_head (c d : N) (t : pystr) : last (rev (c :: t)) d = c.
Proof. simpl; apply last_last. Qed.

(** What [strip] returns has no whitespace at either end. *)
Lemma strip_trimmed (s : pystr) : trimmed (strip s).
Proof.
  unfold trimmed. destruct (strip s) as [|c t] eqn:Hstrip; [exact I|].
  unfold strip in Hstrip.
  destruct (rstrip_split (lstrip s)) as [u [Hl _]].
  rewrite Hstrip in Hl. split.
  - apply (lstrip_head s c (t ++ u)); exact Hl.
  - unfold rstrip in Hstrip.
    destruct (lstrip (rev (lstrip s))) as [|a r] eqn:Hr;
      [discriminate Hstrip|].
    rewrite <- Hstrip, last_rev_head.
    apply (lstrip_head _ _ _ Hr).
Qed.

(** Trimming a trimmed string changes nothing. *)
Lemma strip_idempotent (s : pystr) : strip (strip s) = strip s.
Proof.
  pose proof (strip_trimmed s) as Ht. unfold trimmed in Ht.
  destruct (strip s) as [|c t] eqn:Hs; [reflexivity|].
  destruct Ht as [Hc Hlast].
  unfold strip at 1. rewrite (lstrip_fixed (c :: t) c t eq_refl Hc).
  unfold rstrip.
  destruct (rev (c :: t)) as [|a r] eqn:Hrev.
  - apply (f_equal (@length N)) in Hrev. rewrite length_rev in Hrev.
    discriminate Hrev.
  - assert (Ha : a = last (c :: t) c).
    { rewrite <- (rev_involutive (c :: t)), Hrev, last_rev_head; reflexivity. }
    rewrite (lstrip_fixed (a :: r) a r eq_refl) by (rewrite Ha; exact Hlast).
    rewrite <- Hrev; apply rev_involutive.
Qed.

(** ** Extractor *)

Lemma offers_inv (m : list (pystr * value)) (field n : pystr) :
  offers m field = Some n ->
  n <> [] /\ exists raw, lookup m field = Some (VStr raw) /\ n = strip raw.
Proof.
  unfold offers.
  destruct (lookup m field) as [[| | | |raw| |]|]; try discriminate.
  destruct (strip raw) as [|c t] eqn:Hs; [discriminate|].
  intros H; inversion H; subst; split; [discriminate|].
  exists raw; split; [reflexivity | symmetry; exact Hs].
Qed.

(** The inner loop returns the first name offered, and leaves [name] alone
    when no field offers one. *)
Lemma scan_fields_spec (m : list (pystr * value)) (fields : list pystr)
    (name : value) :
  scan_fields (VDict m) fields name
  = Ok (match first_offer m fields with Some n => VStr n | None => name end).
Proof.
  induction fields as [|field fields IH]; simpl; [reflexivity|].
  unfold offers.
  destruct (lookup m field) as [[| | | |raw| |]|]; simpl; try exact IH.
  destruct (strip raw) as [|c t]; simpl; [exact IH | reflexivity].
Qed.

Lemma first_offer_nonempty (m : list (pystr * value)) (fields : list pystr)
    (n : pystr) :
  first_offer m fields = Some n -> n <> [].
Proof.
  induction fields as [|field fields IH]; simpl; [discriminate|].
  destruct (offers m field) as [n'|] eqn:Ho; [|exact IH].
  intros H; inversion H; subst. apply (offers_inv _ _ _ Ho).
Qed.

Lemma extract_names_body_spec (names : list value) (market : value) :
  extract_names_body names market = Ok (names ++ name_entry market).
Proof.
  unfold extract_names_body, name_entry.
  destruct market as [| | | | | |m];
    try (simpl; rewrite ?app_nil_r; reflexivity).
  cbn [isinstance_dict negb]. rewrite scan_fields_spec. cbn [bind].
  destruct (first_offer m name_fields) as [n|] eqn:Hf; simpl.
  - destruct n as [|c t]; [|reflexivity].
    exfalso; apply (first_offer_nonempty _ _ _ Hf); reflexivity.
  - rewrite app_nil_r; reflexivity.
Qed.

(** The extractor never raises: it collects the entry of each record. *)
Lemma extract_market_names_entries (markets : list value) :
  extract_market_names markets = Ok (flat_map name_entry markets).
Proof.
  unfold extract_market_names.
  rewrite (for_each_collect _ name_entry); [reflexivity|].
  apply extract_names_body_spec.
Qed.

Lemma first_offer_chosen (m : list (pystr * value)) (fields : list pystr)
    (n : pystr) :
  first_offer m fields = Some n <-> chosen fields m n.
Proof.
  split.
  - revert n; induction fields as [|field fields IH]; simpl; intros n;
      [discriminate|].
    destruct (offers m field) as [n'|] eqn:Ho.
    + intros H; inversion H; subst.
      exists [], field, fields; repeat split; auto.
    + intros H. destruct (IH n H) as (before & f & after & Hf & Hn & Hb).
      exists (field :: before), f, after; repeat split; auto.
      simpl; congruence.
  - intros (before & f & after & -> & Hn & Hb).
    induction Hb as [|g before Hg _ IH]; simpl.
    + rewrite Hn; reflexivity.
    + rewrite Hg; exact IH.
Qed.

Lemma first_offer_none (m : list (pystr * value)) (fields : list pystr) :
  first_offer m fields = None <-> Forall (fun f => offers m f = None) fields.
Proof.
  induction fields as [|field fields IH]; simpl.
  - split; [constructor | reflexivity].
  - destruct (offers m field) as [n|] eqn:Ho.
    + split; [discriminate|]. intros H; inversion H; congruence.
    + rewrite IH. split; [constructor; assumption|].
      intros H; inversion H; assumption.
Qed.

(** The entries of the records are their names under the policy. *)
Lemma names_of_entries (markets : list value) :
  exists names,
    flat_map name_entry markets = map VStr names /\ names_of markets names.
Proof.
  induction markets as [|v markets (names & Hmap & Hnames)].
  - exists []; split; [reflexivity | constructor].
  - destruct v as [| | | | | |m];
      try (exists names; split;
           [exact Hmap | apply names_not_mapping; [reflexivity | exact Hnames]]).
    cbn [flat_map]. unfold name_entry at 1.
    destruct (first_offer m name_fields) as [n|] eqn:Hf.
    + exists (n :: names); split; [simpl; f_equal; exact Hmap|].
      apply names_entry; [apply first_offer_chosen; exact Hf | exact Hnames].
    + exists names; split; [exact Hmap|].
      apply names_no_field; [apply first_offer_none; exact Hf | exact Hnames].
Qed.

(** The policy fixes the names of a list of records. *)
Lemma names_of_functional (markets : list value) (names : list pystr) :
  names_of markets names -> flat_map name_entry markets = map VStr names.
Proof.
  induction 1 as [|m n rest names Hc _ IH|m rest names Hn _ IH
                  |v rest names Hv _ IH]; cbn [flat_map].
  - reflexivity.
  - apply first_offer_chosen in Hc. unfold name_entry at 1.
    rewrite Hc, IH; reflexivity.
  - apply first_offer_none in Hn. unfold name_entry at 1.
    rewrite Hn; exact IH.
  - destruct v; try exact IH; discriminate Hv.
Qed.

Lemma map_VStr_injective (l l' : list pystr) :
  map VStr l = map VStr l' -> l = l'.
Proof.
  revert l'; induction l as [|s l IH]; intros [|s' l']; simpl;
    try discriminate; [reflexivity|].
  intros H; inversion H; subst; f_equal; auto.
Qed.

(** C2: the extractor returns, record by record and in order, the trimmed
    value of the first field among question, title, name, description,
    market_slug that is a string and is not empty once trimmed; a record with
    no such field has no entry.  The names are the only ones the policy
    allows.  The two records of the specification yield "X" and
    "Will it rain?". *)
Theorem extract_market_names_preference :
  (forall markets : list value,
      exists names : list pystr,
        extract_market_names markets = Ok (map VStr names)
        /\ names_of markets names
        /\ forall names', names_of markets names' -> names' = names)
  /\ extract_market_names [empty_question_market] = Ok [VStr (lit "X")]
  /\ extract_market_names [blank_title_market] = Ok [VStr (lit "Will it rain?")].
Proof.
  split; [|split; vm_compute; reflexivity].
  intros markets. destruct (names_of_entries markets) as (names & Hmap & Hnames).
  exists names; repeat split.
  - rewrite extract_market_names_entries, Hmap; reflexivity.
  - exact Hnames.
  - intros names' H'. apply names_of_functional in H'.
    apply map_VStr_injective; congruence.
Qed.

Lemma extract_market_names_preference_witness :
  exists names : list pystr,
    extract_market_names mixed_markets = Ok (map VStr names)
    /\ [lit "Will it rain?"; lit "X"] = names.
Proof.
  destruct (proj1 extract_market_names_preference mixed_markets)
    as (names & Hrun & _ & Hunique).
  exists names. split; [exact Hrun|]. apply Hunique.
  unfold mixed_markets.
  apply names_not_mapping; [reflexivity|].
  apply names_entry.
  { exists [lit "question"; lit "title"], (lit "name"),
      [lit "description"; lit "market_slug"].
    repeat split; repeat constructor. }
  apply names_not_mapping; [reflexivity|].
  apply names_not_mapping; [reflexivity|].
  apply names_not_mapping; [reflexivity|].
  apply names_entry.
  { exists [lit "question"], (lit "title"),
      [lit "name"; lit "description"; lit "market_slug"].
    repeat split; repeat constructor. }
  apply names_done.
Defined.

Lemma chosen_field (fields : list pystr) (m : list (pystr * value)) (n : pystr) :
  chosen fields m n -> exists field, In field fields /\ offers m field = Some n.
Proof.
  intros (before & field & after & -> & Hn & _).
  exists field; split; [apply in_elt | exact Hn].
Qed.

Lemma trimmed_field_of_cons (v : value) (markets : list value) (n : pystr) :
  trimmed_field_of markets n -> trimmed_field_of (v :: markets) n.
Proof.
  intros (H1 & H2 & H3 & m & field & raw & Hin & H4).
  repeat split; auto. exists m, field, raw; split; [right; exact Hin | exact H4].
Qed.

Lemma names_of_trimmed (markets : list value) (names : list pystr) :
  names_of markets names -> Forall (trimmed_field_of markets) names.
Proof.
  induction 1 as [|m n rest names Hc _ IH|m rest names _ _ IH
                  |v rest names _ _ IH].
  - constructor.
  - constructor.
    + destruct (chosen_field _ _ _ Hc) as (field & Hin & Ho).
      destruct (offers_inv _ _ _ Ho) as (Hne & raw & Hraw & ->).
      repeat split; [exact Hne | apply strip_trimmed | apply strip_idempotent|].
      exists m, field, raw; repeat split; auto. left; reflexivity.
    + eapply Forall_impl; [|exact IH]. intros; apply trimmed_field_of_cons; auto.
  - eapply Forall_impl; [|exact IH]. intros; apply trimmed_field_of_cons; auto.
  - eapply Forall_impl; [|exact IH]. intros; apply trimmed_field_of_cons; auto.
Qed.

(** C9: every name the extractor returns is the trimmed value of a preferred
    field of one of the records: it is not empty, it has no whitespace at
    either end, and trimming it again changes nothing.  A question padded
    with spaces comes out without them. *)
Theorem extract_market_names_trimmed :
  (forall markets : list value,
      exists names : list pystr,
        extract_market_names markets = Ok (map VStr names)
        /\ Forall (trimmed_field_of markets) names)
  /\ extract_market_names [padded_question_market]
     = Ok [VStr (lit "Will it snow?")].
Proof.
  split; [|vm_compute; reflexivity].
  intros markets. destruct (names_of_entries markets) as (names & Hmap & Hnames).
  exists names; split.
  - rewrite extract_market_names_entries, Hmap; reflexivity.
  - apply names_of_trimmed; exact Hnames.
Qed.

(** C10: the extractor returns for every list, whatever its elements; an
    element that is not a mapping adds no name: the result is the one of the
    list without it. *)
Theorem extract_market_names_total :
  (forall markets : list value,
      exists names : list value, extract_market_names markets = Ok names)
  /\ (forall (before : list value) (v : value) (after : list value),
         isinstance_dict v = false ->
         extract_market_names (before ++ v :: after)
         = extract_market_names (before ++ after))
  /\ extract_market_names mixed_markets
     = Ok [VStr (lit "Will it rain?"); VStr (lit "X")].
Proof.
  split; [|split; [|vm_compute; reflexivity]].
  - intros markets; eexists; apply extract_market_names_entries.
  - intros before v after Hv. rewrite !extract_market_names_entries.
    rewrite !flat_map_app. cbn [flat_map].
    destruct v; try reflexivity; discriminate Hv.
Qed.

Lemma extract_market_names_total_witness :
  extract_market_names ([blank_title_market] ++ VInt 7 :: [empty_question_market])
  = extract_market_names ([blank_title_market] ++ [empty_question_market]).
Proof.
  apply (proj1 (proj2 extract_market_names_total)). reflexivity.
Defined.

(** ** Paginator *)

Lemma py_contains_dict (d : list (pystr * value)) (key : pystr) :
  py_contains (VDict d) key
  = Ok (match lookup d key with Some _ => true | None => false end).
Proof. reflexivity. Qed.

(** What the loop does with a response, in the words of the
    specification. *)
Lemma handle_response_malformed (response : value) (s : loop_state) :
  malformed response = true -> handle_response response s = Ok (Break s).
Proof.
  unfold malformed, handle_response.
  destruct response as [| | | | | |d]; try reflexivity.
  cbn [isinstance_dict]. rewrite py_contains_dict.
  destruct (lookup d (lit "data")); [discriminate | reflexivity].
Qed.

Lemma handle_response_not_iterable (response : value) (s : loop_state) :
  malformed response = false -> page_records response = None ->
  handle_response response s = Raise TypeError.
Proof.
  unfold malformed, page_records, handle_response.
  destruct response as [| | | | | |d]; try discriminate.
  cbn [isinstance_dict py_getitem]. rewrite py_contains_dict.
  destruct (lookup d (lit "data")) as [markets|]; [|discriminate].
  intros _. cbn [bind].
  destruct markets; simpl; try reflexivity; discriminate.
Qed.

Lemma handle_response_page (response : value) (s : loop_state)
    (items : list value) :
  page_records response = Some items ->
  handle_response response s
  = Ok (if stale_token response (cursor s)
        then Break {| all_markets := all_markets s ++ items;
                      cursor := cursor s;
                      page_count := page_count s + 1 |}
        else Continue {| all_markets := all_markets s ++ items;
                         cursor := next_token response;
                         page_count := page_count s + 1 |}).
Proof.
  unfold page_records, handle_response, stale_token, next_token.
  destruct response as [| | | | | |d]; try discriminate.
  cbn [isinstance_dict py_getitem py_get]. rewrite py_contains_dict.
  destruct (lookup d (lit "data")) as [markets|]; [|discriminate].
  cbn [bind].
  destruct (py_iter markets) as [items'|e]; [|discriminate].
  intros H; inversion H; subst. cbn [bind].
  destruct (negb _ || _); reflexivity.
Qed.

Lemma malformed_no_records (response : value) :
  malformed response = true -> page_records response = None.
Proof.
  unfold malformed, page_records.
  destruct response as [| | | | | |d]; try reflexivity.
  destruct (lookup d (lit "data")); [discriminate | reflexivity].
Qed.

(** One request and its handling, read as the request it logs. *)
Lemma attempt_spec (response : result value) (s : loop_state) :
  let c := {| sent := cursor s; received := response |} in
  match (r <- response ;; handle_response r s) with
  | Ok (Continue s') =>
      continuing c = true
      /\ all_markets s' = all_markets s ++ page_items c
      /\ page_count s' = page_count s + 1
  | Ok (Break s') =>
      continuing c = false /\ escaping c = None
      /\ all_markets s' = all_markets s ++ page_items c
  | Raise e =>
      continuing c = false /\ page_items c = []
      /\ escaping c = (if is_Exception e then None else Some e)
  end.
Proof.
  destruct response as [response|e]; cbn [bind].
  - unfold continuing, page_items, escaping; cbn [received sent].
    destruct (page_records response) as [items|] eqn:Hp.
    + rewrite (handle_response_page _ _ _ Hp).
      destruct (stale_token response (cursor s)); simpl; auto.
    + destruct (malformed response) eqn:Hm.
      * rewrite (handle_response_malformed _ _ Hm).
        rewrite app_nil_r; auto.
      * rewrite (handle_response_not_iterable _ _ Hm Hp); auto.
  - unfold continuing, page_items, escaping; cbn [received].
    destruct (is_Exception e); auto.
Qed.

Lemma last_nonempty_default (c d : call) (l : list call) :
  l <> [] -> last l c = last l d.
Proof.
  induction l as [|x l IH]; [congruence|]. intros _.
  destruct l as [|y l]; [reflexivity|]. apply IH; discriminate.
Qed.

Lemma outcome_of_cons (acc : list value) (c : call) (requests : list call) :
  continuing c = true ->
  outcome_of acc (c :: requests) = outcome_of (acc ++ page_items c) requests.
Proof.
  intros Hc. destruct requests as [|c' requests].
  - unfold outcome_of; cbn [last flat_map]. unfold escaping.
    unfold continuing in Hc. destruct (received c); [|discriminate].
    rewrite app_nil_r; reflexivity.
  - unfold outcome_of.
    change (last (c :: c' :: requests) c) with (last (c' :: requests) c).
    rewrite (last_nonempty_default c c') by discriminate.
    destruct (escaping _); [reflexivity|].
    cbn [flat_map]. rewrite app_assoc; reflexivity.
Qed.

Lemma outcome_of_last (acc : list value) (before : list call) (c : call) :
  outcome_of acc (before ++ [c])
  = match escaping c with
    | Some e => Raise e
    | None => Ok (acc ++ flat_map page_items before ++ page_items c)
    end.
Proof.
  unfold outcome_of. destruct (before ++ [c]) as [|x l] eqn:Hl.
  - destruct before; discriminate Hl.
  - rewrite <- Hl, last_last, flat_map_app. cbn [flat_map].
    rewrite app_nil_r; reflexivity.
Qed.

Lemma outcome_of_single (acc : list value) (c : call) :
  outcome_of acc [c]
  = match escaping c with
    | Some e => Raise e
    | None => Ok (acc ++ page_items c)
    end.
Proof. exact (outcome_of_last acc [] c). Qed.

(** Once all requests but the last went on, a request that did not go on is
    the last one. *)
Lemma stopping_request_is_last (before : list call) (c : call)
    (after : list call) :
  Forall (fun x => continuing x = true) (removelast (before ++ c :: after)) ->
  continuing c = false ->
  after = [].
Proof.
  intros Hall Hc. destruct after as [|a after]; [reflexivity|].
  exfalso. rewrite removelast_app in Hall by discriminate.
  apply Forall_app in Hall as [_ Hall].
  cbn [removelast] in Hall. inversion Hall; congruence.
Qed.

Section PaginatorProperties.

Variable World : Type.
Variable get_markets : ClobClient -> value -> World -> result value * World.

(** The shape of every run of the loop, from any state. *)
Lemma while_loop_run (client : ClobClient) (max_pages : Z) (fuel : nat) :
  forall (s : loop_state) (w : World) (log : list call) (r : run World),
    while_loop World get_markets fuel client max_pages s w log = Some r ->
    exists requests,
      calls r = log ++ requests
      /\ Forall (fun c => continuing c = true) (removelast requests)
      /\ returned r = outcome_of (all_markets s) requests
      /\ Z.of_nat (length requests) <= Z.max 0 (max_pages - page_count s)
      /\ (Forall (fun c => continuing c = true) requests ->
          Z.of_nat (length requests) = Z.max 0 (max_pages - page_count s))
      /\ Forall (answered get_markets client) requests.
Proof.
  induction fuel as [|fuel IH]; intros s w log r; cbn [while_loop];
    [discriminate|].
  destruct (page_count s <? max_pages) eqn:Hlt.
  - apply Z.ltb_lt in Hlt.
    destruct (get_markets client (cursor s) w) as [response w'] eqn:Hget.
    assert (Hans : answered get_markets client {| sent := cursor s; received := response |}).
    { exists w; cbn [sent received]; rewrite Hget; reflexivity. }
    pose proof (attempt_spec response s) as Hstep. cbn zeta in Hstep.
    destruct (r0 <- response ;; handle_response r0 s) as [[s'|s']|e].
    + destruct Hstep as (Hc & Hall & Hpc). intros Hrun.
      destruct (IH _ _ _ _ Hrun) as (requests & Hcalls & Hgo & Hret & Hlen & Hexact & Hanswered).
      exists ({| sent := cursor s; received := response |} :: requests).
      repeat split.
      * rewrite Hcalls, <- app_assoc; reflexivity.
      * destruct requests as [|c' requests]; [constructor|].
        change (removelast (?c :: c' :: requests))
          with (c :: removelast (c' :: requests)).
        constructor; assumption.
      * rewrite outcome_of_cons by exact Hc. rewrite <- Hall; exact Hret.
      * cbn [length]. rewrite Hpc in Hlen. lia.
      * intros Hforall. inversion Hforall; subst.
        cbn [length]. rewrite Hpc in Hexact. rewrite Nat2Z.inj_succ, Hexact by assumption. lia.
      * constructor; assumption.
    + destruct Hstep as (Hc & Hesc & Hall). intros Hrun; inversion Hrun; subst.
      exists [{| sent := cursor s; received := response |}]. cbn [calls returned].
      repeat split.
      * constructor.
      * rewrite outcome_of_single, Hesc, Hall; reflexivity.
      * cbn [length]. lia.
      * intros Hforall. inversion Hforall; congruence.
      * constructor; [assumption | constructor].
    + destruct Hstep as (Hc & Hitems & Hesc). intros Hrun.
      exists [{| sent := cursor s; received := response |}].
      destruct (is_Exception e); inversion Hrun; subst;
        cbn [calls returned]; repeat split;
        try constructor; try assumption; try constructor;
        try (rewrite outcome_of_single, Hesc, ?Hitems, ?app_nil_r;
             reflexivity);
        try (cbn [length]; lia);
        try (intros Hforall; inversion Hforall; congruence).
  - apply Z.ltb_ge in Hlt. intros Hrun; inversion Hrun; subst.
    exists []. cbn [calls returned]. rewrite app_nil_r.
    repeat split; try constructor; cbn [length]; lia.
Qed.

(** The loop ends within the bound that [fetch_all_markets] gives it. *)
Lemma while_loop_terminates (client : ClobClient) (max_pages : Z) (fuel : nat) :
  forall (s : loop_state) (w : World) (log : list call),
    (Z.to_nat (max_pages - page_count s) < fuel)%nat ->
    exists r, while_loop World get_markets fuel client max_pages s w log = Some r.
Proof.
  induction fuel as [|fuel IH]; intros s w log Hfuel; [lia|].
  cbn [while_loop].
  destruct (page_count s <? max_pages) eqn:Hlt; [|eexists; reflexivity].
  apply Z.ltb_lt in Hlt.
  destruct (get_markets client (cursor s) w) as [response w'].
  pose proof (attempt_spec response s) as Hstep. cbn zeta in Hstep.
  destruct (r0 <- response ;; handle_response r0 s) as [[s'|s']|e].
  - apply IH. destruct Hstep as (_ & _ & Hpc). rewrite Hpc. lia.
  - eexists; reflexivity.
  - destruct (is_Exception e); eexists; reflexivity.
Qed.

(** A larger bound does not change the run. *)
Lemma while_loop_more_fuel (client : ClobClient) (max_pages : Z) (fuel : nat) :
  forall (s : loop_state) (w : World) (log : list call) (r : run World),
    while_loop World get_markets fuel client max_pages s w log = Some r ->
    while_loop World get_markets (S fuel) client max_pages s w log = Some r.
Proof.
  induction fuel as [|fuel IH]; intros s w log r; [discriminate|].
  intros Hrun. cbn [while_loop] in Hrun. cbn [while_loop].
  destruct (page_count s <? max_pages); [|exact Hrun].
  destruct (get_markets client (cursor s) w) as [response w'].
  destruct (r0 <- response ;; handle_response r0 s) as [[s'|s']|e];
    try exact Hrun.
  apply IH in Hrun. exact Hrun.
Qed.

Lemma fetch_all_markets_terminates (api_url : pystr) (max_pages : Z) (w : World) :
  exists r, fetch_all_markets World get_markets api_url max_pages w = Some r.
Proof.
  unfold fetch_all_markets. apply while_loop_terminates.
  cbn [page_count]. rewrite Z.sub_0_r. lia.
Qed.

Lemma fetch_all_markets_run (api_url : pystr) (max_pages : Z) (w : World)
    (r : run World) :
  fetch_all_markets World get_markets api_url max_pages w = Some r ->
  Forall (fun c => continuing c = true) (removelast (calls r))
  /\ returned r = outcome_of [] (calls r)
  /\ Z.of_nat (length (calls r)) <= Z.max 0 max_pages
  /\ (Forall (fun c => continuing c = true) (calls r) ->
      Z.of_nat (length (calls r)) = Z.max 0 max_pages)
  /\ Forall (answered get_markets {| host := api_url |}) (calls r).
Proof.
  unfold fetch_all_markets. intros Hrun.
  destruct (while_loop_run _ _ _ _ _ _ _ Hrun)
    as (requests & Hcalls & Hgo & Hret & Hlen & Hexact & Hans).
  cbn [app all_markets page_count] in *. rewrite Z.sub_0_r in *.
  rewrite Hcalls. auto.
Qed.

End PaginatorProperties.

(** C3: when a page fetch raises an [Exception], or the response is not a
    mapping with the field [data], the run ends with that request and returns
    the records of the pages before it; nothing is raised.  When the very
    first response is malformed the result is empty.  The function returns
    for every service. *)
Theorem fetch_all_markets_stops_on_fault :
  forall (World : Type)
         (get_markets : ClobClient -> value -> World -> result value * World)
         (api_url : pystr) (max_pages : Z) (w : World),
    (forall (r : run World) (before : list call) (c : call) (after : list call),
        fetch_all_markets World get_markets api_url max_pages w = Some r ->
        calls r = before ++ c :: after ->
        faulty c = true ->
        after = [] /\ returned r = Ok (flat_map page_items before))
    /\ (forall (response : value) (w' : World),
           0 < max_pages ->
           get_markets {| host := api_url |} first_cursor w = (Ok response, w') ->
           malformed response = true ->
           fetch_all_markets World get_markets api_url max_pages w
           = Some {| returned := Ok []; world := w';
                     calls := [{| sent := first_cursor;
                                  received := Ok response |}] |})
    /\ exists r, fetch_all_markets World get_markets api_url max_pages w = Some r.
Proof.
  intros World get_markets api_url max_pages w. split; [|split].
  - intros r before c after Hrun Hcalls Hfault.
    destruct (fetch_all_markets_run _ _ _ _ _ _ Hrun) as (Hgo & Hret & _).
    assert (Hc : continuing c = false /\ page_items c = [] /\ escaping c = None).
    { unfold faulty in Hfault. unfold continuing, page_items, escaping.
      destruct (received c) as [response|e].
      - rewrite (malformed_no_records _ Hfault); auto.
      - rewrite Hfault; auto. }
    destruct Hc as (Hc & Hitems & Hesc).
    rewrite Hcalls in Hgo.
    pose proof (stopping_request_is_last _ _ _ Hgo Hc) as ->.
    split; [reflexivity|].
    rewrite Hret, Hcalls, outcome_of_last, Hesc, Hitems, app_nil_r.
    reflexivity.
  - intros response w' Hpos Hget Hbad.
    unfold fetch_all_markets. cbn [while_loop page_count cursor].
    apply Z.ltb_lt in Hpos. rewrite Hpos.
    unfold first_cursor in Hget. rewrite Hget. cbn [bind].
    rewrite (handle_response_malformed _ _ Hbad). reflexivity.
  - apply fetch_all_markets_terminates.
Qed.

Lemma fetch_all_markets_stops_on_fault_witness :
  @nil call = []
  /\ returned failing_run
     = Ok (flat_map page_items
             [{| sent := first_cursor;
                 received := Ok (page [record 1; record 2] (Some (lit "B"))) |}]).
Proof.
  apply (proj1 (fetch_all_markets_stops_on_fault nat failing_service
                  example_url MAX_PAGES 0%nat)
           failing_run
           [{| sent := first_cursor;
               received := Ok (page [record 1; record 2] (Some (lit "B"))) |}]
           {| sent := VStr (lit "B"); received := Raise (ExternalError 503) |}
           []).
  - vm_compute; reflexivity.
  - reflexivity.
  - reflexivity.
Defined.

(** C4: a run makes at most [max_pages] requests and returns; against a
    service whose every answer is a page with a token that is neither empty
    nor the cursor sent, it makes exactly [max_pages] requests (none when
    [max_pages] is not positive) and returns their records. *)
Theorem fetch_all_markets_page_cap :
  forall (World : Type)
         (get_markets : ClobClient -> value -> World -> result value * World)
         (api_url : pystr) (max_pages : Z) (w : World),
  exists r,
    fetch_all_markets World get_markets api_url max_pages w = Some r
    /\ Z.of_nat (length (calls r)) <= Z.max 0 max_pages
    /\ ((forall client c w0,
            continuing {| sent := c;
                          received := fst (get_markets client c w0) |} = true) ->
        Z.of_nat (length (calls r)) = Z.max 0 max_pages
        /\ returned r = Ok (flat_map page_items (calls r))).
Proof.
  intros World get_markets api_url max_pages w.
  destruct (fetch_all_markets_terminates World get_markets api_url max_pages w)
    as [r Hrun].
  exists r. split; [exact Hrun|].
  destruct (fetch_all_markets_run _ _ _ _ _ _ Hrun)
    as (Hgo & Hret & Hlen & Hexact & Hans).
  split; [exact Hlen|]. intros Hfresh.
  assert (Hall : Forall (fun c => continuing c = true) (calls r)).
  { eapply Forall_impl; [|exact Hans].
    intros [c0 resp] [w0 Hw0]. cbn [sent received] in Hw0. rewrite Hw0.
    apply Hfresh. }
  split; [apply Hexact; exact Hall|].
  rewrite Hret. unfold outcome_of.
  destruct (calls r) as [|c l] eqn:Hcalls; [reflexivity|].
  assert (Hlast : continuing (last (c :: l) c) = true).
  { rewrite Forall_forall in Hall. apply Hall.
    rewrite <- Hcalls.
    destruct (exists_last (l := c :: l)) as (l' & x & Hx); [discriminate|].
    rewrite Hcalls, Hx, last_last. apply in_elt. }
  unfold escaping. unfold continuing in Hlast.
  destruct (received (last (c :: l) c)); [reflexivity | discriminate].
Qed.

Lemma endless_service_continuing (client : ClobClient) (c : value) (w0 : nat) :
  continuing {| sent := c; received := fst (endless_service client c w0) |} = true.
Proof.
  unfold endless_service, continuing, stale_token; cbn [fst received sent].
  destruct (py_eq (VStr (lit "A")) c) eqn:Hc.
  - destruct c as [| | | |s| |]; try discriminate Hc.
    cbn [py_eq] in Hc. apply pystr_eqb_eq in Hc. subst s. reflexivity.
  - cbn. cbn in Hc. rewrite Hc. reflexivity.
Qed.

Lemma fetch_all_markets_page_cap_witness :
  exists r,
    fetch_all_markets nat endless_service example_url 5 0%nat = Some r
    /\ Z.of_nat (length (calls r)) <= Z.max 0 5
    /\ Z.of_nat (length (calls r)) = Z.max 0 5
    /\ returned r = Ok (flat_map page_items (calls r)).
Proof.
  destruct (fetch_all_markets_page_cap nat endless_service example_url 5 0%nat)
    as (r & Hrun & Hle & Hexact).
  exists r. split; [exact Hrun|]. split; [exact Hle|].
  apply Hexact. exact endless_service_continuing.
Defined.

(** C5: every run returns, and when a page comes back whose token is absent,
    empty or equal to the cursor that was sent for it, its records are
    appended and it is the last request of the run: nothing is fetched after
    it. *)
Theorem fetch_all_markets_stops_on_stale_token :
  forall (World : Type)
         (get_markets : ClobClient -> value -> World -> result value * World)
         (api_url : pystr) (max_pages : Z) (w : World),
    (exists r, fetch_all_markets World get_markets api_url max_pages w = Some r)
    /\ forall (r : run World) (before : list call) (c : call)
              (after : list call) (response : value) (items : list value),
        fetch_all_markets World get_markets api_url max_pages w = Some r ->
        calls r = before ++ c :: after ->
        received c = Ok response ->
        page_records response = Some items ->
        stale_token response (sent c) = true ->
        after = [] /\ returned r = Ok (flat_map page_items before ++ items).
Proof.
  intros World get_markets api_url max_pages w.
  split; [apply fetch_all_markets_terminates|].
  intros r before c after response items Hrun Hcalls Hrecv Hpage Hstale.
  destruct (fetch_all_markets_run _ _ _ _ _ _ Hrun) as (Hgo & Hret & _).
  assert (Hc : continuing c = false).
  { unfold continuing. rewrite Hrecv, Hpage, Hstale. reflexivity. }
  rewrite Hcalls in Hgo.
  pose proof (stopping_request_is_last _ _ _ Hgo Hc) as ->.
  split; [reflexivity|].
  rewrite Hret, Hcalls, outcome_of_last.
  unfold escaping, page_items. rewrite Hrecv, Hpage. reflexivity.
Qed.

Lemma fetch_all_markets_stops_on_stale_token_witness :
  @nil call = []
  /\ returned echo_run = Ok (flat_map page_items [] ++ [record 1]).
Proof.
  apply (proj2 (fetch_all_markets_stops_on_stale_token nat echo_service
                  example_url MAX_PAGES 0%nat)
           echo_run []
           {| sent := first_cursor;
              received := Ok (VDict [(lit "data", VList [record 1]);
                                     (lit "next_cursor", first_cursor)]) |}
           []
           (VDict [(lit "data", VList [record 1]);
                   (lit "next_cursor", first_cursor)])
           [record 1]).
  - vm_compute; reflexivity.
  - reflexivity.
  - reflexivity.
  - reflexivity.
  - vm_compute; reflexivity.
Defined.

Lemma length_flat_map_items (requests : list call) :
  length (flat_map page_items requests)
  = list_sum (map (fun c => length (page_items c)) requests).
Proof.
  induction requests as [|c requests IH]; [reflexivity|].
  cbn [flat_map map list_sum]. rewrite length_app, IH; reflexivity.
Qed.

(** C6: every run returns, and the list it returns is the concatenation, in
    the order of the requests, of the records of the pages it fetched, so
    its length is the sum of the page lengths.  With a first page of two
    records and the token "B" and a second page of one record and no token,
    the three records come back in order after two requests. *)
Theorem fetch_all_markets_concatenates :
  (forall (World : Type)
          (get_markets : ClobClient -> value -> World -> result value * World)
          (api_url : pystr) (max_pages : Z) (w : World),
      (exists r, fetch_all_markets World get_markets api_url max_pages w = Some r)
      /\ forall (r : run World) (markets : list value),
          fetch_all_markets World get_markets api_url max_pages w = Some r ->
          returned r = Ok markets ->
          markets = flat_map page_items (calls r)
          /\ length markets
             = list_sum (map (fun c => length (page_items c)) (calls r)))
  /\ fetch_all_markets nat two_page_service example_url MAX_PAGES 0%nat
     = Some two_page_run.
Proof.
  split; [|vm_compute; reflexivity].
  intros World get_markets api_url max_pages w.
  split; [apply fetch_all_markets_terminates|].
  intros r markets Hrun Hok.
  destruct (fetch_all_markets_run _ _ _ _ _ _ Hrun) as (_ & Hret & _).
  assert (Hm : markets = flat_map page_items (calls r)).
  { rewrite Hret in Hok. unfold outcome_of in Hok.
    destruct (calls r) as [|c l]; [inversion Hok; reflexivity|].
    destruct (escaping _); [discriminate|]. inversion Hok; reflexivity. }
  split; [exact Hm|]. rewrite Hm. apply length_flat_map_items.
Qed.

Lemma fetch_all_markets_concatenates_witness :
  [record 1; record 2; record 3] = flat_map page_items (calls two_page_run)
  /\ length [record 1; record 2; record 3]
     = list_sum (map (fun c => length (page_items c)) (calls two_page_run)).
Proof.
  apply (proj2 (proj1 fetch_all_markets_concatenates nat two_page_service
                  example_url MAX_PAGES 0%nat)
           two_page_run).
  - vm_compute; reflexivity.
  - reflexivity.
Defined.

(** ** Entry point *)

Section MainProperties.

Variable World : Type.
Variable get_markets : ClobClient -> value -> World -> result value * World.
Variable save_json : value -> path -> Z -> World -> result unit * World.
Variable print : message -> World -> result unit.

Abbreviation fetch := (fetch_all_markets World get_markets).
Abbreviation main_try' := (main_try World get_markets save_json print).
Abbreviation main' := (main World get_markets save_json print).

(** An exception that leaves [fetch_all_markets] was raised by the client
    and is not an [Exception]. *)
Lemma fetch_all_markets_raise (api_url : pystr) (max_pages : Z) (w : World)
    (r : run World) (e : exn) :
  fetch api_url max_pages w = Some r ->
  returned r = Raise e ->
  is_Exception e = false
  /\ exists client c w0, fst (get_markets client c w0) = Raise e.
Proof.
  intros Hrun Hraise.
  destruct (fetch_all_markets_run _ _ _ _ _ _ Hrun) as (_ & Hret & _ & _ & Hans).
  rewrite Hret in Hraise. unfold outcome_of in Hraise.
  destruct (calls r) as [|c l] eqn:Hcalls; [discriminate|].
  assert (Hin : In (last (c :: l) c) (c :: l)).
  { destruct (exists_last (l := c :: l)) as (l' & x & Hx); [discriminate|].
    rewrite Hx, last_last. apply in_elt. }
  rewrite Forall_forall in Hans. destruct (Hans _ Hin) as [w0 Hw0].
  unfold escaping in Hraise.
  destruct (received (last (c :: l) c)) as [|e'] eqn:Hrecv; [discriminate|].
  destruct (is_Exception e') eqn:He'; [discriminate|].
  inversion Hraise; subst. split; [exact He'|].
  exists {| host := api_url |}, (sent (last (c :: l) c)), w0.
  symmetry; exact Hw0.
Qed.

(** The [try] block when the fetch lets an exception through. *)
Lemma main_try_raised (args : Args) (w : World) (r : run World) (e : exn) :
  fetch (api_url args) (max_pages args) w = Some r ->
  returned r = Raise e ->
  main_try' args w = Some (Raise e, world r).
Proof.
  intros Hrun Hret. unfold main_try, io_bind, io_fetch.
  rewrite Hrun, Hret. reflexivity.
Qed.

(** The [try] block once the fetch has returned its records: it returns 1
    when there are none, and otherwise performs its steps, up to the first
    that raises. *)
Lemma main_try_fetched (args : Args) (w : World) (r : run World)
    (markets : list value) :
  fetch (api_url args) (max_pages args) w = Some r ->
  returned r = Ok markets ->
  main_try' args w
  = match markets with
    | [] => Some (Ok 1, world r)
    | _ :: _ =>
        let saved := selected args markets in
        let (raised, w') :=
          perform (main_steps save_json print args markets saved
                     (flat_map name_entry saved)) (world r) in
        Some (match raised with
              | None => Ok (main_code saved)
              | Some e => Raise e
              end, w')
    end.
Proof.
  intros Hrun Hok.
  unfold main_try, io_bind, io_fetch, io_eval, io_call, io_print, io_ret,
    selected, main_steps, save_steps, print_step, markets_path, names_path.
  cbv beta in Hrun. rewrite Hrun, Hok.
  destruct markets as [|m markets]; [reflexivity|].
  cbn [py_truthy negb]. cbv zeta. destruct (current args).
  - rewrite filter_current_markets_filter.
    cbn [app perform].
    destruct (print (Filtered _ _) (world r)) as [[]|e]; [|reflexivity].
    destruct (filter is_current (m :: markets)) as [|m' current_markets];
      [reflexivity|].
    cbn [py_truthy negb perform main_code].
    destruct (save_json _ _ _ (world r)) as [[[]|e] w1]; [|reflexivity].
    destruct (print (SavedCurrentMarkets _ _) w1) as [[]|e]; [|reflexivity].
    rewrite extract_market_names_entries.
    destruct (save_json _ _ _ w1) as [[[]|e] w2]; [|reflexivity].
    destruct (print (SavedCurrentNames _ _) w2) as [[]|e]; reflexivity.
  - cbn [app perform main_code].
    destruct (save_json _ _ _ (world r)) as [[[]|e] w1]; [|reflexivity].
    destruct (print (SavedMarkets _ _) w1) as [[]|e]; [|reflexivity].
    rewrite extract_market_names_entries.
    destruct (save_json _ _ _ w1) as [[[]|e] w2]; [|reflexivity].
    destruct (print (SavedNames _ _) w2) as [[]|e]; reflexivity.
Qed.

End MainProperties.



(** The exit codes of some runs, computed: two successes, a partial fetch,
    nothing fetched, nothing current, a full disk, a standard output that
    cannot encode the messages, a failure and an interrupt of the second
    write alone, and an interrupt of the fetch. *)
Example main_scenarios :
  main nat one_page_service writing utf8_stdout (default_args false) 0%nat
  = Some (Ok 0, 1%nat)
  /\ main nat one_page_service writing utf8_stdout (default_args true) 0%nat
     = Some (Ok 0, 1%nat)
  /\ main nat failing_service writing utf8_stdout (default_args false) 0%nat
     = Some (Ok 0, 2%nat)
  /\ main nat malformed_service writing utf8_stdout (default_args false) 0%nat
     = Some (Ok 1, 1%nat)
  /\ main nat closed_page_service writing utf8_stdout (default_args true) 0%nat
     = Some (Ok 1, 1%nat)
  /\ main nat one_page_service disk_full utf8_stdout (default_args false) 0%nat
     = Some (Ok 1, 1%nat)
  /\ main nat one_page_service writing ascii_stdout (default_args false) 0%nat
     = Some (Ok 1, 1%nat)
  /\ main nat one_page_service (names_write_raises (ExternalError 28))
       utf8_stdout (default_args false) 0%nat
     = Some (Ok 1, 1%nat)
  /\ main nat one_page_service (names_write_raises KeyboardInterrupt)
       utf8_stdout (default_args false) 0%nat
     = Some (Ok 130, 1%nat)
  /\ main nat interrupted_service writing utf8_stdout (default_args false) 0%nat
     = Some (Ok 130, 1%nat).
Proof. repeat split; vm_compute; reflexivity. Qed.

(** * Further properties of the code *)

(** ** Classifier *)

(** The classifier never raises and returns, in order, the records that are
    mappings with both flags present and false as truth values; no other
    record is kept. *)
Theorem filter_current_markets_keeps_falsy_flags :
  forall markets : list value,
    filter_current_markets markets = Ok (filter is_current markets)
    /\ forall m : value,
        In m (filter is_current markets)
        <-> In m markets
            /\ exists d is_closed is_archived,
                 m = VDict d
                 /\ lookup d (lit "closed") = Some is_closed
                 /\ lookup d (lit "archived") = Some is_archived
                 /\ py_truthy is_closed = false
                 /\ py_truthy is_archived = false.
Proof.
  intros markets. split; [apply filter_current_markets_filter|].
  intros m. rewrite filter_In. split.
  - intros [Hin Hm]. split; [exact Hin | apply is_current_inv; exact Hm].
  - intros [Hin (d & c & a & -> & Hc & Ha & Hfc & Hfa)].
    split; [exact Hin|].
    unfold is_current. rewrite Hc, Ha, Hfc, Hfa. reflexivity.
Qed.

Lemma filter_current_markets_keeps_falsy_flags_witness :
  In falsy_flags_market
     (filter is_current [closed_market; falsy_flags_market; VInt 3]).
Proof.
  apply (proj2 (filter_current_markets_keeps_falsy_flags
                  [closed_market; falsy_flags_market; VInt 3])
           falsy_flags_market).
  split.
  - right; left; reflexivity.
  - exists [(lit "closed", VInt 0); (lit "archived", VStr [])], (VInt 0), (VStr []).
    repeat split; reflexivity.
Defined.

Lemma filter_current_markets_boolean_flags_witness :
  filter_current_markets [open_market; closed_market; VNone; archived_market]
  = Ok (filter spec_current [open_market; closed_market; VNone; archived_market]).
Proof.
  apply filter_current_markets_boolean_flags. reflexivity.
Defined.

(** Classifying a list in two parts and joining the results is classifying
    the whole list. *)
Theorem filter_current_markets_app :
  forall l1 l2 : list value,
    filter_current_markets (l1 ++ l2)
    = (current1 <- filter_current_markets l1 ;;
       current2 <- filter_current_markets l2 ;;
       Ok (current1 ++ current2)).
Proof.
  intros l1 l2. rewrite !filter_current_markets_filter. cbn [bind].
  rewrite filter_app. reflexivity.
Qed.

(** ** Extractor *)

(** Extracting the names of a list in two parts and joining the results is
    extracting the names of the whole list. *)
Theorem extract_market_names_app :
  forall l1 l2 : list value,
    extract_market_names (l1 ++ l2)
    = (names1 <- extract_market_names l1 ;;
       names2 <- extract_market_names l2 ;;
       Ok (names1 ++ names2)).
Proof.
  intros l1 l2. rewrite !extract_market_names_entries. cbn [bind].
  rewrite flat_map_app. reflexivity.
Qed.

Lemma name_entry_length (market : value) :
  (length (name_entry market) <= if isinstance_dict market then 1 else 0)%nat.
Proof.
  destruct market as [| | | | | |m]; cbn [isinstance_dict]; try (simpl; lia).
  unfold name_entry. destruct (first_offer m name_fields); simpl; lia.
Qed.

(** There is at most one name for each mapping of the input, so there are
    never more names than records. *)
Theorem extract_market_names_length :
  forall markets : list value,
  exists names : list value,
    extract_market_names markets = Ok names
    /\ (length names <= length (filter isinstance_dict markets))%nat
    /\ (length names <= length markets)%nat.
Proof.
  intros markets. exists (flat_map name_entry markets).
  split; [apply extract_market_names_entries|].
  assert (H : (length (flat_map name_entry markets)
               <= length (filter isinstance_dict markets))%nat).
  { induction markets as [|v markets IH]; [simpl; lia|].
    cbn [flat_map filter]. rewrite length_app.
    pose proof (name_entry_length v) as Hv.
    destruct (isinstance_dict v); cbn [length]; lia. }
  split; [exact H|].
  pose proof (filter_length_le isinstance_dict markets). lia.
Qed.

Lemma subsequence_refl (l : list value) : subsequence l l.
Proof. induction l; constructor; assumption. Qed.

Lemma subsequence_app (l1 m1 l2 m2 : list value) :
  subsequence l1 m1 -> subsequence l2 m2 -> subsequence (l1 ++ l2) (m1 ++ m2).
Proof.
  intros H1 H2. induction H1; simpl; try constructor; assumption.
Qed.

Lemma subsequence_nil_l (m : list value) : subsequence [] m.
Proof. induction m; constructor; assumption. Qed.

(** The names of the current records are among the names of all records, in
    the same order: classifying first only removes names. *)
Theorem extract_market_names_of_current :
  forall markets : list value,
  exists current names current_names : list value,
    filter_current_markets markets = Ok current
    /\ extract_market_names markets = Ok names
    /\ extract_market_names current = Ok current_names
    /\ subsequence current_names names.
Proof.
  intros markets.
  exists (filter is_current markets), (flat_map name_entry markets),
    (flat_map name_entry (filter is_current markets)).
  split; [apply filter_current_markets_filter|].
  split; [apply extract_market_names_entries|].
  split; [apply extract_market_names_entries|].
  induction markets as [|v markets IH]; [constructor|].
  cbn [filter flat_map]. destruct (is_current v).
  - cbn [flat_map]. apply subsequence_app; [apply subsequence_refl | exact IH].
  - change (flat_map name_entry (filter is_current markets))
      with ([] ++ flat_map name_entry (filter is_current markets)).
    apply subsequence_app; [apply subsequence_nil_l | exact IH].
Qed.

Lemma lookup_None_iff (m : list (pystr * value)) (k : pystr) :
  lookup m k = None <-> ~ In k (map fst m).
Proof.
  induction m as [|[k' v'] m IH]; simpl; [tauto|].
  destruct (pystr_eqb k' k) eqn:Hk.
  - apply pystr_eqb_eq in Hk. split; [discriminate | tauto].
  - rewrite IH. split; [|tauto].
    intros Hn [Heq | Hin]; [|tauto].
    subst k'. rewrite pystr_eqb_refl in Hk. discriminate.
Qed.

Lemma lookup_Some_iff (m : list (pystr * value)) (k : pystr) (v : value) :
  NoDup (map fst m) -> (lookup m k = Some v <-> In (k, v) m).
Proof.
  induction m as [|[k' v'] m IH]; simpl; intros Hnd.
  - split; [discriminate | tauto].
  - inversion Hnd as [|? ? Hnotin Hnd']; subst.
    destruct (pystr_eqb k' k) eqn:Hk.
    + apply pystr_eqb_eq in Hk. subst k'. split.
      * intros H; inversion H; auto.
      * intros [H | H]; [inversion H; reflexivity|].
        exfalso. apply Hnotin. apply (in_map fst) in H. exact H.
    + rewrite (IH Hnd'). split; [tauto|].
      intros [H | H]; [|exact H].
      inversion H; subst. rewrite pystr_eqb_refl in Hk. discriminate.
Qed.

(** Looking a key up does not depend on the order of the items of a
    mapping. *)
Lemma lookup_Permutation (m m' : list (pystr * value)) (k : pystr) :
  NoDup (map fst m) -> Permutation m m' -> lookup m k = lookup m' k.
Proof.
  intros Hnd Hperm.
  assert (Hnd' : NoDup (map fst m')).
  { eapply Permutation_NoDup; [apply Permutation_map; exact Hperm | exact Hnd]. }
  destruct (lookup m k) as [v|] eqn:Hl.
  - symmetry. apply (lookup_Some_iff _ _ _ Hnd').
    eapply Permutation_in; [exact Hperm|].
    apply (lookup_Some_iff _ _ _ Hnd). exact Hl.
  - symmetry. apply lookup_None_iff. apply lookup_None_iff in Hl.
    intros Hin. apply Hl.
    eapply Permutation_in; [apply Permutation_sym, Permutation_map; exact Hperm|].
    exact Hin.
Qed.

Lemma first_offer_Permutation (m m' : list (pystr * value))
    (fields : list pystr) :
  NoDup (map fst m) -> Permutation m m' ->
  first_offer m fields = first_offer m' fields.
Proof.
  intros Hnd Hperm. induction fields as [|field fields IH]; [reflexivity|].
  cbn [first_offer]. unfold offers.
  rewrite (lookup_Permutation m m' field Hnd Hperm), IH. reflexivity.
Qed.

(** The name of a record does not depend on the order of its items: the
    preference list governs, not the order of the mapping. *)
Theorem extract_market_names_item_order :
  forall (before : list value) (m m' : list (pystr * value))
         (after : list value),
    NoDup (map fst m) ->
    Permutation m m' ->
    extract_market_names (before ++ VDict m :: after)
    = extract_market_names (before ++ VDict m' :: after).
Proof.
  intros before m m' after Hnd Hperm.
  rewrite !extract_market_names_entries, !flat_map_app. cbn [flat_map].
  unfold name_entry at 2 5.
  rewrite (first_offer_Permutation m m' name_fields Hnd Hperm). reflexivity.
Qed.

Lemma extract_market_names_item_order_witness :
  extract_market_names ([VNone] ++ blank_title_market :: [open_market])
  = extract_market_names ([VNone] ++ reordered_blank_title_market :: [open_market]).
Proof.
  apply extract_market_names_item_order.
  - repeat constructor; simpl; intuition discriminate.
  - apply perm_swap.
Defined.

Lemma strip_split (s : pystr) :
  exists u v, s = u ++ strip s ++ v /\ all_space u /\ all_space v.
Proof.
  destruct (lstrip_split s) as (u & Hu & Hus).
  destruct (rstrip_split (lstrip s)) as (v & Hv & Hvs).
  exists u, v. unfold strip. rewrite <- Hv. auto.
Qed.

(** Each name is a field value of a record with nothing but whitespace
    removed at its two ends: the text in between is untouched. *)
Theorem extract_market_names_keeps_text :
  forall markets : list value,
  exists names : list pystr,
    extract_market_names markets = Ok (map VStr names)
    /\ Forall (fun n =>
                 exists m field raw u v,
                   In (VDict m) markets /\ In field name_fields
                   /\ lookup m field = Some (VStr raw)
                   /\ raw = u ++ n ++ v /\ all_space u /\ all_space v) names.
Proof.
  intros markets. destruct (names_of_entries markets) as (names & Hmap & Hnames).
  exists names. split.
  - rewrite extract_market_names_entries, Hmap; reflexivity.
  - eapply Forall_impl; [|apply names_of_trimmed; exact Hnames].
    intros n (_ & _ & _ & m & field & raw & Hin & Hfield & Hraw & ->).
    destruct (strip_split raw) as (u & v & Hsplit & Hu & Hv).
    exists m, field, raw, u, v. auto 10.
Qed.

Lemma strip_of_trimmed (s : pystr) : trimmed s -> strip s = s.
Proof.
  unfold trimmed. destruct s as [|c t]; [reflexivity|].
  intros [Hc Hlast].
  unfold strip. rewrite (lstrip_fixed (c :: t) c t eq_refl Hc).
  unfold rstrip.
  destruct (rev (c :: t)) as [|a r] eqn:Hrev.
  - apply (f_equal (@length N)) in Hrev. rewrite length_rev in Hrev.
    discriminate Hrev.
  - assert (Ha : a = last (c :: t) c).
    { rewrite <- (rev_involutive (c :: t)), Hrev, last_rev_head; reflexivity. }
    rewrite (lstrip_fixed (a :: r) a r eq_refl) by (rewrite Ha; exact Hlast).
    rewrite <- Hrev; apply rev_involutive.
Qed.

(** A question that is not empty and has no whitespace at its ends is the
    name of its record, unchanged, whatever the other fields hold. *)
Theorem extract_market_names_question_verbatim :
  forall (m : list (pystr * value)) (raw : pystr),
    lookup m (lit "question") = Some (VStr raw) ->
    raw <> [] ->
    trimmed raw ->
    extract_market_names [VDict m] = Ok [VStr raw].
Proof.
  intros m raw Hq Hne Htrim.
  rewrite extract_market_names_entries. cbn [flat_map].
  unfold name_entry, name_fields. cbn [first_offer]. unfold offers at 1.
  rewrite Hq, (strip_of_trimmed raw Htrim).
  destruct raw; [congruence | reflexivity].
Qed.

Lemma extract_market_names_question_verbatim_witness :
  extract_market_names [open_market] = Ok [VStr (lit "Open?")].
Proof.
  apply extract_market_names_question_verbatim.
  - reflexivity.
  - discriminate.
  - split; reflexivity.
Defined.

(** ** Paginator *)

Lemma attempt_continue (response : result value) (s s' : loop_state) :
  (r <- response ;; handle_response r s) = Ok (Continue s') ->
  exists r, response = Ok r /\ cursor s' = next_token r.
Proof.
  destruct response as [r|e]; cbn [bind]; [|discriminate].
  intros H. exists r; split; [reflexivity|].
  destruct (page_records r) as [items|] eqn:Hp.
  - rewrite (handle_response_page _ _ _ Hp) in H.
    destruct (stale_token r (cursor s)); inversion H; reflexivity.
  - destruct (malformed r) eqn:Hm.
    + rewrite (handle_response_malformed _ _ Hm) in H. discriminate H.
    + rewrite (handle_response_not_iterable _ _ Hm Hp) in H. discriminate H.
Qed.

Section CursorChain.

Variable World : Type.
Variable get_markets : ClobClient -> value -> World -> result value * World.

(** The cursors of a run: the first request sends the cursor of the state,
    every later one the token of the response before it. *)
Lemma while_loop_chain (client : ClobClient) (max_pages : Z) (fuel : nat) :
  forall (s : loop_state) (w : World) (log : list call) (r : run World),
    while_loop World get_markets fuel client max_pages s w log = Some r ->
    exists requests,
      calls r = log ++ requests
      /\ (forall c rest, requests = c :: rest -> sent c = cursor s)
      /\ (forall before c1 c2 after,
             requests = before ++ c1 :: c2 :: after ->
             exists response,
               received c1 = Ok response /\ sent c2 = next_token response).
Proof.
  induction fuel as [|fuel IH]; intros s w log r; cbn [while_loop];
    [discriminate|].
  destruct (page_count s <? max_pages).
  - destruct (get_markets client (cursor s) w) as [response w'].
    pose proof (attempt_continue response s) as Hcont.
    destruct (r0 <- response ;; handle_response r0 s) as [[s'|s']|e].
    + intros Hrun.
      destruct (Hcont s' eq_refl) as (resp & -> & Hcur).
      destruct (IH _ _ _ _ Hrun) as (requests & Hcalls & Hfirst & Hpairs).
      exists ({| sent := cursor s; received := Ok resp |} :: requests).
      split; [rewrite Hcalls, <- app_assoc; reflexivity|]. split.
      * intros c rest H; inversion H; reflexivity.
      * intros before c1 c2 after H. destruct before as [|b before].
        -- cbn [app] in H. inversion H; subst.
           exists resp. split; [reflexivity|].
           rewrite (Hfirst c2 after eq_refl). exact Hcur.
        -- cbn [app] in H. inversion H; subst.
           apply (Hpairs before c1 c2 after eq_refl).
    + intros Hrun; inversion Hrun; subst.
      exists [{| sent := cursor s; received := response |}]. cbn [calls].
      split; [reflexivity|]. split.
      * intros c rest H; inversion H; reflexivity.
      * intros [|b [|b' before]] c1 c2 after H; inversion H.
    + intros Hrun.
      exists [{| sent := cursor s; received := response |}].
      destruct (is_Exception e); inversion Hrun; subst; cbn [calls];
        (split; [reflexivity|]); split;
        try (intros c rest H; inversion H; reflexivity);
        intros [|b [|b' before]] c1 c2 after H; inversion H.
  - intros Hrun; inversion Hrun; subst. exists []. cbn [calls].
    rewrite app_nil_r. split; [reflexivity|]. split.
    + intros c rest H; discriminate H.
    + intros [|b before] c1 c2 after H; discriminate H.
Qed.

(** A run seen from a smaller page cap: the run under the larger cap is the
    same, or goes on from where the smaller cap stopped it. *)
Lemma while_loop_cap (client : ClobClient) (n n' : Z) (fuel : nat) :
  n <= n' ->
  forall (fuel' : nat) (s : loop_state) (w : World) (log : list call)
         (r r' : run World),
    while_loop World get_markets fuel client n s w log = Some r ->
    while_loop World get_markets fuel' client n' s w log = Some r' ->
    r' = r
    \/ exists markets more,
         returned r = Ok markets
         /\ calls r' = calls r ++ more
         /\ forall markets', returned r' = Ok markets' ->
                             exists tail, markets' = markets ++ tail.
Proof.
  intros Hle. induction fuel as [|fuel IH]; intros fuel' s w log r r';
    cbn [while_loop]; [discriminate|].
  destruct (page_count s <? n) eqn:Hlt.
  - destruct fuel' as [|fuel']; cbn [while_loop]; [discriminate|].
    assert (Hlt' : (page_count s <? n') = true).
    { apply Z.ltb_lt. apply Z.ltb_lt in Hlt. lia. }
    rewrite Hlt'.
    destruct (get_markets client (cursor s) w) as [response w'].
    destruct (r0 <- response ;; handle_response r0 s) as [[s'|s']|e].
    + apply IH.
    + intros H1 H2. left. congruence.
    + destruct (is_Exception e); intros H1 H2; left; congruence.
  - intros H1 Hrun'. inversion H1; subst. right.
    destruct (while_loop_run _ _ _ _ _ _ _ _ _ Hrun')
      as (requests & Hcalls & _ & Hret & _).
    exists (all_markets s), requests. cbn [returned calls].
    split; [reflexivity|]. split; [exact Hcalls|].
    intros markets' Hok. rewrite Hret in Hok. unfold outcome_of in Hok.
    destruct requests as [|c l].
    + inversion Hok. exists []. rewrite app_nil_r. reflexivity.
    + destruct (escaping _); [discriminate|]. inversion Hok. eauto.
Qed.

End CursorChain.

(** The first request of a run sends the cursor "MA==".  Of two requests in
    a row, the first got a page with a record sequence and a token that is
    neither empty nor the cursor it sent, and the second sends that token. *)
Theorem fetch_all_markets_cursor_chain :
  forall (World : Type)
         (get_markets : ClobClient -> value -> World -> result value * World)
         (api_url : pystr) (max_pages : Z) (w : World) (r : run World),
    fetch_all_markets World get_markets api_url max_pages w = Some r ->
    (forall c rest, calls r = c :: rest -> sent c = VStr (lit "MA=="))
    /\ (forall before c1 c2 after,
           calls r = before ++ c1 :: c2 :: after ->
           exists response,
             received c1 = Ok response
             /\ page_records response <> None
             /\ py_truthy (next_token response) = true
             /\ py_eq (next_token response) (sent c1) = false
             /\ sent c2 = next_token response).
Proof.
  intros World get_markets api_url max_pages w r Hrun.
  destruct (fetch_all_markets_run _ _ _ _ _ _ Hrun) as (Hgo & _).
  unfold fetch_all_markets in Hrun.
  destruct (while_loop_chain _ _ _ _ _ _ _ _ _ Hrun)
    as (requests & Hcalls & Hfirst & Hpairs).
  cbn [app cursor] in Hcalls, Hfirst. subst requests.
  split; [exact Hfirst|].
  intros before c1 c2 after Hsplit.
  destruct (Hpairs _ _ _ _ Hsplit) as (response & Hrecv & Hsent).
  exists response. rewrite Hsplit in Hgo.
  rewrite removelast_app in Hgo by discriminate.
  apply Forall_app in Hgo as [_ Hgo].
  change (removelast (c1 :: c2 :: after))
    with (c1 :: removelast (c2 :: after)) in Hgo.
  inversion Hgo as [|? ? Hc1 _]; subst.
  unfold continuing, stale_token in Hc1. rewrite Hrecv in Hc1.
  destruct (page_records response); [|discriminate].
  apply negb_true_iff, orb_false_iff in Hc1 as [Htruthy Heq].
  apply negb_false_iff in Htruthy.
  repeat split; try assumption. discriminate.
Qed.

Lemma fetch_all_markets_cursor_chain_witness :
  exists response,
    Ok (page [record 1; record 2] (Some (lit "B"))) = Ok response
    /\ page_records response <> None
    /\ py_truthy (next_token response) = true
    /\ py_eq (next_token response) first_cursor = false
    /\ VStr (lit "B") = next_token response.
Proof.
  apply (proj2 (fetch_all_markets_cursor_chain nat two_page_service example_url
                  MAX_PAGES 0%nat two_page_run
                  ltac:(vm_compute; reflexivity))
           []
           {| sent := first_cursor;
              received := Ok (page [record 1; record 2] (Some (lit "B"))) |}
           {| sent := VStr (lit "B"); received := Ok (page [record 3] None) |}
           []).
  reflexivity.
Defined.

(** An exception of the client that is not an [Exception], such as the
    user's interrupt, ends the run and leaves [fetch_all_markets]: the
    records fetched before it are not returned. *)
Theorem fetch_all_markets_lets_interrupt_through :
  forall (World : Type)
         (get_markets : ClobClient -> value -> World -> result value * World)
         (api_url : pystr) (max_pages : Z) (w : World) (r : run World)
         (before : list call) (c : call) (after : list call) (e : exn),
    fetch_all_markets World get_markets api_url max_pages w = Some r ->
    calls r = before ++ c :: after ->
    received c = Raise e ->
    is_Exception e = false ->
    after = [] /\ returned r = Raise e.
Proof.
  intros World get_markets api_url max_pages w r before c after e
    Hrun Hcalls Hrecv He.
  destruct (fetch_all_markets_run _ _ _ _ _ _ Hrun) as (Hgo & Hret & _).
  assert (Hc : continuing c = false).
  { unfold continuing. rewrite Hrecv. reflexivity. }
  rewrite Hcalls in Hgo.
  pose proof (stopping_request_is_last _ _ _ Hgo Hc) as ->.
  split; [reflexivity|].
  rewrite Hret, Hcalls, outcome_of_last.
  unfold escaping. rewrite Hrecv, He. reflexivity.
Qed.

Lemma fetch_all_markets_lets_interrupt_through_witness :
  @nil call = [] /\ returned interrupted_later_run = Raise KeyboardInterrupt.
Proof.
  apply (fetch_all_markets_lets_interrupt_through nat interrupted_later_service
           example_url MAX_PAGES 0%nat interrupted_later_run
           [{| sent := first_cursor;
               received := Ok (page [record 1; record 2] (Some (lit "B"))) |}]
           {| sent := VStr (lit "B"); received := Raise KeyboardInterrupt |}
           [] KeyboardInterrupt).
  - vm_compute; reflexivity.
  - reflexivity.
  - reflexivity.
  - reflexivity.
Defined.

(** A response whose [data] is present but cannot be iterated (a number, a
    boolean, [null]) is handled like a fault: the run ends with that request
    and returns the records of the pages before it, whatever the token. *)
Theorem fetch_all_markets_stops_on_bad_data :
  forall (World : Type)
         (get_markets : ClobClient -> value -> World -> result value * World)
         (api_url : pystr) (max_pages : Z) (w : World) (r : run World)
         (before : list call) (c : call) (after : list call)
         (d : list (pystr * value)) (markets : value) (e : exn),
    fetch_all_markets World get_markets api_url max_pages w = Some r ->
    calls r = before ++ c :: after ->
    received c = Ok (VDict d) ->
    lookup d (lit "data") = Some markets ->
    py_iter markets = Raise e ->
    after = [] /\ returned r = Ok (flat_map page_items before).
Proof.
  intros World get_markets api_url max_pages w r before c after d markets e
    Hrun Hcalls Hrecv Hdata Hiter.
  destruct (fetch_all_markets_run _ _ _ _ _ _ Hrun) as (Hgo & Hret & _).
  assert (Hp : page_records (VDict d) = None).
  { unfold page_records. rewrite Hdata, Hiter. reflexivity. }
  assert (Hc : continuing c = false).
  { unfold continuing. rewrite Hrecv, Hp. reflexivity. }
  rewrite Hcalls in Hgo.
  pose proof (stopping_request_is_last _ _ _ Hgo Hc) as ->.
  split; [reflexivity|].
  rewrite Hret, Hcalls, outcome_of_last.
  unfold escaping, page_items. rewrite Hrecv, Hp, app_nil_r. reflexivity.
Qed.

Lemma fetch_all_markets_stops_on_bad_data_witness :
  @nil call = []
  /\ returned null_data_run
     = Ok (flat_map page_items
             [{| sent := first_cursor;
                 received := Ok (page [record 1; record 2] (Some (lit "B"))) |}]).
Proof.
  apply (fetch_all_markets_stops_on_bad_data nat null_data_service
           example_url MAX_PAGES 0%nat null_data_run
           [{| sent := first_cursor;
               received := Ok (page [record 1; record 2] (Some (lit "B"))) |}]
           {| sent := VStr (lit "B");
              received := Ok (VDict [(lit "data", VNone);
                                     (lit "next_cursor", VStr (lit "C"))]) |}
           []
           [(lit "data", VNone); (lit "next_cursor", VStr (lit "C"))]
           VNone TypeError).
  - vm_compute; reflexivity.
  - reflexivity.
  - reflexivity.
  - reflexivity.
  - reflexivity.
Defined.

(** Raising the page cap only lets a run go on: against the same service
    and world, the requests under the smaller cap are the first requests
    under the larger one, the records returned under the smaller cap are the
    first records returned under the larger one, and a run that an escaping
    exception ended is the same under both. *)
Theorem fetch_all_markets_cap_extends :
  forall (World : Type)
         (get_markets : ClobClient -> value -> World -> result value * World)
         (api_url : pystr) (n n' : Z) (w : World) (r r' : run World),
    n <= n' ->
    fetch_all_markets World get_markets api_url n w = Some r ->
    fetch_all_markets World get_markets api_url n' w = Some r' ->
    (exists more, calls r' = calls r ++ more)
    /\ (forall markets markets',
           returned r = Ok markets -> returned r' = Ok markets' ->
           exists tail, markets' = markets ++ tail)
    /\ (forall e, returned r = Raise e -> r' = r).
Proof.
  intros World get_markets api_url n n' w r r' Hle Hrun Hrun'.
  unfold fetch_all_markets in Hrun, Hrun'.
  destruct (while_loop_cap _ _ _ _ _ _ Hle _ _ _ _ _ _ Hrun Hrun')
    as [-> | (markets0 & more & Hret & Hcalls & Hprefix)].
  - split; [exists []; rewrite app_nil_r; reflexivity|]. split.
    + intros markets markets' H1 H2. exists [].
      rewrite app_nil_r. congruence.
    + reflexivity.
  - split; [exists more; exact Hcalls|]. split.
    + intros markets markets' H1 H2.
      assert (markets = markets0) by congruence. subst markets0.
      apply Hprefix; exact H2.
    + intros e He. congruence.
Qed.

Lemma fetch_all_markets_cap_extends_witness :
  (exists more, calls two_page_run = calls capped_two_page_run ++ more)
  /\ (forall markets markets',
         returned capped_two_page_run = Ok markets ->
         returned two_page_run = Ok markets' ->
         exists tail, markets' = markets ++ tail)
  /\ (forall e, returned capped_two_page_run = Raise e ->
                two_page_run = capped_two_page_run).
Proof.
  apply (fetch_all_markets_cap_extends nat two_page_service example_url
           1 MAX_PAGES 0%nat capped_two_page_run two_page_run).
  - unfold MAX_PAGES; lia.
  - vm_compute; reflexivity.
  - vm_compute; reflexivity.
Defined.

(** ** Entry point *)

Section MainFurther.

Variable World : Type.
Variable get_markets : ClobClient -> value -> World -> result value * World.
Variable save_json : value -> path -> Z -> World -> result unit * World.
Variable print : message -> World -> result unit.

(** The steps of [main] all succeed when the writer and the standard output
    do. *)
Lemma perform_main_steps_succeeds (args : Args)
    (markets saved names : list value) (w : World) :
  writer_succeeds save_json ->
  printer_succeeds print ->
  exists w',
    perform (main_steps save_json print args markets saved names) w = (None, w').
Proof.
  intros Hwrite Hprint.
  assert (Hsave : forall w0, exists w',
             perform (save_steps save_json print args saved names) w0
             = (None, w')).
  { intros w0. unfold save_steps, print_step. cbn [perform].
    pose proof (Hwrite (VList saved) (markets_path args) (indent args) w0) as H1.
    destruct (save_json (VList saved) _ _ w0) as [r1 w1].
    cbn [fst] in H1; subst r1. rewrite Hprint.
    pose proof (Hwrite (VList names) (names_path args) (indent args) w1) as H2.
    destruct (save_json (VList names) _ _ w1) as [r2 w2].
    cbn [fst] in H2; subst r2. rewrite Hprint. eauto. }
  unfold main_steps.
  destruct (current args); cbn [app perform]; unfold print_step;
    rewrite ?Hprint; destruct saved; cbn [perform]; eauto.
Qed.

(** When no step of [main] raised and there was a record to save, both
    writes were made, in order, and succeeded. *)
Lemma perform_main_steps_saved (args : Args)
    (markets saved names : list value) (w w' : World) :
  saved <> [] ->
  perform (main_steps save_json print args markets saved names) w = (None, w') ->
  exists w1,
    save_json (VList saved) (markets_path args) (indent args) w = (Ok tt, w1)
    /\ save_json (VList names) (names_path args) (indent args) w1 = (Ok tt, w').
Proof.
  intros Hsome.
  assert (Hsave : forall w0,
             perform (save_steps save_json print args saved names) w0
             = (None, w') ->
             exists w1,
               save_json (VList saved) (markets_path args) (indent args) w0
               = (Ok tt, w1)
               /\ save_json (VList names) (names_path args) (indent args) w1
                  = (Ok tt, w')).
  { intros w0. unfold save_steps, print_step. cbn [perform].
    destruct (save_json (VList saved) _ _ w0) as [[[]|e] w1]; [|discriminate].
    destruct (print _ w1) as [[]|e]; [|discriminate].
    destruct (save_json (VList names) _ _ w1) as [[[]|e] w2] eqn:H2;
      [|discriminate].
    destruct (print _ w2) as [[]|e]; [|discriminate].
    intros H; inversion H; subst. exists w1. split; [reflexivity | exact H2]. }
  unfold main_steps. destruct saved as [|m ms]; [congruence|].
  destruct (current args); cbn [app perform]; [|apply Hsave].
  unfold print_step. destruct (print _ w) as [[]|e]; [apply Hsave | discriminate].
Qed.

(** With records to save, and a writer and a standard output that succeed,
    [main] returns 0. *)
Lemma main_saves (args : Args) (w : World) (r : run World)
    (markets : list value) :
  fetch_all_markets World get_markets (api_url args) (max_pages args) w = Some r ->
  returned r = Ok markets ->
  selected args markets <> [] ->
  writer_succeeds save_json ->
  printer_succeeds print ->
  exists w', main World get_markets save_json print args w = Some (Ok 0, w').
Proof.
  intros Hrun Hret Hsome Hwrite Hprint. unfold main.
  rewrite (main_try_fetched _ _ save_json print args w r markets Hrun Hret).
  destruct markets as [|m markets].
  - exfalso. apply Hsome. unfold selected. destruct (current args); reflexivity.
  - cbv zeta.
    destruct (perform_main_steps_succeeds args (m :: markets)
                (selected args (m :: markets))
                (flat_map name_entry (selected args (m :: markets)))
                (world r) Hwrite Hprint) as [w' ->].
    exists w'. unfold main_code.
    destruct (selected args (m :: markets)); [congruence | reflexivity].
Qed.

(** A run whose first response is a page with a record returns a list that
    is not empty, unless an exception escapes it. *)
Lemma fetch_all_markets_first_page (api_url : pystr) (max_pages : Z) (w w1 : World)
    (response : value) (x : value) (xs : list value) (r : run World)
    (markets : list value) :
  0 < max_pages ->
  get_markets {| host := api_url |} (VStr (lit "MA==")) w = (Ok response, w1) ->
  page_records response = Some (x :: xs) ->
  fetch_all_markets World get_markets api_url max_pages w = Some r ->
  returned r = Ok markets ->
  exists tail, markets = x :: xs ++ tail.
Proof.
  intros Hpos Hget Hpage Hrun Hret.
  unfold fetch_all_markets in Hrun. cbn [while_loop page_count cursor] in Hrun.
  apply Z.ltb_lt in Hpos. rewrite Hpos, Hget in Hrun. cbn [bind] in Hrun.
  rewrite (handle_response_page _ _ _ Hpage) in Hrun.
  cbn [all_markets app] in Hrun.
  destruct (stale_token response _).
  - inversion Hrun; subst. cbn [returned] in Hret. inversion Hret.
    exists []. rewrite app_nil_r. reflexivity.
  - destruct (while_loop_run _ _ _ _ _ _ _ _ _ Hrun)
      as (requests & _ & _ & Hout & _).
    rewrite Hout in Hret. cbn [all_markets] in Hret. unfold outcome_of in Hret.
    destruct requests as [|c l].
    + inversion Hret. exists []. rewrite app_nil_r. reflexivity.
    + destruct (escaping _); [discriminate|]. inversion Hret.
      exists (flat_map page_items (c :: l)). reflexivity.
Qed.

End MainFurther.

(** With a page cap that is not positive, [main] makes no request, writes
    nothing and returns 1. *)
Theorem main_without_pages :
  forall (World : Type)
         (get_markets : ClobClient -> value -> World -> result value * World)
         (save_json : value -> path -> Z -> World -> result unit * World)
         (print : message -> World -> result unit)
         (args : Args) (w : World),
    max_pages args <= 0 ->
    fetch_all_markets World get_markets (api_url args) (max_pages args) w
    = Some {| returned := Ok []; world := w; calls := [] |}
    /\ main World get_markets save_json print args w = Some (Ok 1, w).
Proof.
  intros World get_markets save_json print args w Hcap.
  assert (Hrun : fetch_all_markets World get_markets (api_url args)
                   (max_pages args) w
                 = Some {| returned := Ok []; world := w; calls := [] |}).
  { unfold fetch_all_markets. cbn [while_loop page_count].
    apply Z.ltb_ge in Hcap. rewrite Hcap. reflexivity. }
  split; [exact Hrun|]. unfold main.
  rewrite (main_try_fetched _ _ save_json print args w _ [] Hrun eq_refl).
  reflexivity.
Qed.

Lemma main_without_pages_witness :
  fetch_all_markets nat one_page_service
    (api_url (with_max_pages (default_args false) 0))
    (max_pages (with_max_pages (default_args false) 0)) 7%nat
  = Some {| returned := Ok []; world := 7%nat; calls := [] |}
  /\ main nat one_page_service writing utf8_stdout
       (with_max_pages (default_args false) 0) 7%nat
     = Some (Ok 1, 7%nat).
Proof.
  apply (main_without_pages nat one_page_service writing utf8_stdout
           (with_max_pages (default_args false) 0) 7%nat).
  simpl; lia.
Defined.

(** [main] returns 0 only after it fetched records, kept at least one (the
    current ones in current-only mode, all of them otherwise), and wrote
    first the records and then their names, both writes succeeding. *)
Theorem main_success_means_saved :
  forall (World : Type)
         (get_markets : ClobClient -> value -> World -> result value * World)
         (save_json : value -> path -> Z -> World -> result unit * World)
         (print : message -> World -> result unit)
         (args : Args) (w w' : World),
    main World get_markets save_json print args w = Some (Ok 0, w') ->
    exists (r : run World) (markets saved names : list value) (w1 : World),
      fetch_all_markets World get_markets (api_url args) (max_pages args) w
      = Some r
      /\ returned r = Ok markets
      /\ (if current args then filter_current_markets markets else Ok markets)
         = Ok saved
      /\ saved <> []
      /\ extract_market_names saved = Ok names
      /\ save_json (VList saved) (markets_path args) (indent args) (world r)
         = (Ok tt, w1)
      /\ save_json (VList names) (names_path args) (indent args) w1
         = (Ok tt, w').
Proof.
  intros World get_markets save_json print args w w' Hmain.
  destruct (fetch_all_markets_terminates World get_markets
              (api_url args) (max_pages args) w) as [r Hrun].
  unfold main in Hmain.
  destruct (returned r) as [markets|e] eqn:Hret.
  - rewrite (main_try_fetched _ _ save_json print args w r markets Hrun Hret)
      in Hmain.
    destruct markets as [|m markets]; [discriminate|].
    cbv zeta in Hmain.
    destruct (perform _ (world r)) as [[e|] w2] eqn:Hsteps.
    + destruct (is_KeyboardInterrupt e), (is_Exception e); discriminate.
    + assert (Hsome : selected args (m :: markets) <> []).
      { unfold main_code in Hmain.
        destruct (selected args (m :: markets)); [discriminate Hmain|].
        discriminate. }
      inversion Hmain; subst w2.
      destruct (perform_main_steps_saved _ _ _ _ _ _ _ _ _ Hsome Hsteps)
        as (w1 & H1 & H2).
      exists r, (m :: markets), (selected args (m :: markets)),
        (flat_map name_entry (selected args (m :: markets))), w1.
      split; [exact Hrun|]. split; [exact Hret|]. split.
      { unfold selected. destruct (current args);
          [rewrite filter_current_markets_filter|]; reflexivity. }
      split; [exact Hsome|].
      split; [apply extract_market_names_entries|].
      split; assumption.
  - rewrite (main_try_raised _ _ save_json print args w r e Hrun Hret) in Hmain.
    destruct (is_KeyboardInterrupt e), (is_Exception e); discriminate.
Qed.

Lemma main_success_means_saved_witness :
  exists (r : run nat) (markets saved names : list value) (w1 : nat),
    fetch_all_markets nat one_page_service (api_url (default_args true))
      (max_pages (default_args true)) 0%nat = Some r
    /\ returned r = Ok markets
    /\ (if current (default_args true)
        then filter_current_markets markets else Ok markets) = Ok saved
    /\ saved <> []
    /\ extract_market_names saved = Ok names
    /\ writing (VList saved) (markets_path (default_args true))
         (indent (default_args true)) (world r) = (Ok tt, w1)
    /\ writing (VList names) (names_path (default_args true))
         (indent (default_args true)) w1 = (Ok tt, 1%nat).
Proof.
  apply (main_success_means_saved nat one_page_service writing utf8_stdout
           (default_args true) 0%nat 1%nat).
  vm_compute; reflexivity.
Defined.

(** In current-only mode the values of [--out] and [--names-out] have no
    effect on what [main] does. *)
Theorem main_current_ignores_outputs :
  forall (World : Type)
         (get_markets : ClobClient -> value -> World -> result value * World)
         (save_json : value -> path -> Z -> World -> result unit * World)
         (print : message -> World -> result unit)
         (args : Args) (out' names_out' : option pystr) (w : World),
    current args = true ->
    main World get_markets save_json print (with_outputs args out' names_out') w
    = main World get_markets save_json print args w.
Proof.
  intros World get_markets save_json print args out' names_out' w Hcur.
  unfold main, main_try, with_outputs.
  cbn [api_url out names_out indent max_pages current].
  rewrite Hcur. reflexivity.
Qed.

Lemma main_current_ignores_outputs_witness :
  main nat one_page_service writing utf8_stdout
    (with_outputs (default_args true) (Some (lit "all.json"))
       (Some (lit "names.json"))) 0%nat
  = main nat one_page_service writing utf8_stdout (default_args true) 0%nat.
Proof.
  apply main_current_ignores_outputs. reflexivity.
Defined.

(** Once the first page has a record, a later fault does not fail the run:
    with a positive cap, outside current-only mode, against a service that
    raises nothing but [Exception]s, and with a writer and a standard output
    that succeed, [main] returns 0. *)
Theorem main_partial_fetch_succeeds :
  forall (World : Type)
         (get_markets : ClobClient -> value -> World -> result value * World)
         (save_json : value -> path -> Z -> World -> result unit * World)
         (print : message -> World -> result unit)
         (args : Args) (w w1 : World) (response x : value) (xs : list value),
    0 < max_pages args ->
    current args = false ->
    get_markets {| host := api_url args |} (VStr (lit "MA==")) w
    = (Ok response, w1) ->
    page_records response = Some (x :: xs) ->
    service_faults_only get_markets ->
    writer_succeeds save_json ->
    printer_succeeds print ->
    exists w', main World get_markets save_json print args w = Some (Ok 0, w').
Proof.
  intros World get_markets save_json print args w w1 response x xs
    Hpos Hcur Hget Hpage Hservice Hwrite Hprint.
  destruct (fetch_all_markets_terminates World get_markets
              (api_url args) (max_pages args) w) as [r Hrun].
  destruct (returned r) as [markets|e] eqn:Hret.
  - destruct (fetch_all_markets_first_page _ _ _ _ _ _ _ _ _ _ _
                Hpos Hget Hpage Hrun Hret) as [tail ->].
    apply (main_saves _ _ _ _ args w r _ Hrun Hret); [|exact Hwrite|exact Hprint].
    unfold selected. rewrite Hcur. discriminate.
  - destruct (fetch_all_markets_raise _ _ _ _ _ _ _ Hrun Hret)
      as (He & client & c & w0 & Hraise).
    rewrite (Hservice _ _ _ _ Hraise) in He. discriminate He.
Qed.

Lemma main_partial_fetch_succeeds_witness :
  exists w', main nat failing_service writing utf8_stdout (default_args false)
               0%nat
             = Some (Ok 0, w').
Proof.
  apply (main_partial_fetch_succeeds nat failing_service writing utf8_stdout
           (default_args false) 0%nat 1%nat
           (page [record 1; record 2] (Some (lit "B")))
           (record 1) [record 2]).
  - reflexivity.
  - reflexivity.
  - reflexivity.
  - reflexivity.
  - intros client c served e. unfold failing_service; cbn [fst].
    destruct (py_eq c (VStr (lit "MA=="))); [discriminate|].
    intros H; inversion H; reflexivity.
  - intros data p i served; reflexivity.
  - intros m served; reflexivity.
Defined.

(** When the first request meets a fault (the client raises an [Exception],
    or the response is not a mapping with [data]), [main] writes nothing and
    returns 1: the world is the one the request left. *)
Theorem main_first_request_fails :
  forall (World : Type)
         (get_markets : ClobClient -> value -> World -> result value * World)
         (save_json : value -> path -> Z -> World -> result unit * World)
         (print : message -> World -> result unit)
         (args : Args) (w w1 : World) (answer : result value),
    0 < max_pages args ->
    get_markets {| host := api_url args |} (VStr (lit "MA==")) w = (answer, w1) ->
    faulty {| sent := VStr (lit "MA=="); received := answer |} = true ->
    fetch_all_markets World get_markets (api_url args) (max_pages args) w
    = Some {| returned := Ok []; world := w1;
              calls := [{| sent := VStr (lit "MA=="); received := answer |}] |}
    /\ main World get_markets save_json print args w = Some (Ok 1, w1).
Proof.
  intros World get_markets save_json print args w w1 answer Hpos Hget Hfault.
  assert (Hrun : fetch_all_markets World get_markets (api_url args)
                   (max_pages args) w
                 = Some {| returned := Ok []; world := w1;
                           calls := [{| sent := VStr (lit "MA==");
                                        received := answer |}] |}).
  { unfold fetch_all_markets. cbn [while_loop page_count cursor].
    apply Z.ltb_lt in Hpos. rewrite Hpos, Hget.
    unfold faulty in Hfault. cbn [received] in Hfault.
    destruct answer as [response|e]; cbn [bind].
    - rewrite (handle_response_malformed _ _ Hfault). reflexivity.
    - rewrite Hfault. reflexivity. }
  split; [exact Hrun|]. unfold main.
  rewrite (main_try_fetched _ _ save_json print args w _ [] Hrun eq_refl).
  reflexivity.
Qed.

Lemma main_first_request_fails_witness :
  fetch_all_markets nat malformed_service (api_url (default_args true))
    (max_pages (default_args true)) 0%nat
  = Some {| returned := Ok []; world := 1%nat;
            calls := [{| sent := VStr (lit "MA==");
                         received :=
                           Ok (VDict [(lit "error", VStr (lit "unavailable"))]) |}] |}
  /\ main nat malformed_service writing utf8_stdout (default_args true) 0%nat
     = Some (Ok 1, 1%nat).
Proof.
  apply (main_first_request_fails nat malformed_service writing utf8_stdout
           (default_args true) 0%nat 1%nat).
  - reflexivity.
  - reflexivity.
  - reflexivity.
Defined.
